(** * DevVerse blog: article search and topic filtering

    A shallow embedding of the two client components that carry state,
    [src/components/ArticlesList.tsx] and
    [src/components/HomePageContent.tsx], and the properties of the
    filtering, toggling, initialisation and location-synchronisation code.

    Conventions.
    - A JS string is modelled by [string], the sequence of its code units.
    - An optional property ([description?: string]) is an [option].
    - An array is a [list]; the identity of an array (what React compares
      with [Object.is] in dependency lists) is kept beside it as a number
      where an effect depends on it.
    - A component is a state record, handlers that update it, and a [commit]
      function that runs the effects of one render and returns the router
      calls they make together with the updated state. *)

From Stdlib Require Import List Bool Arith Lia Ascii String Sorted.
Import ListNotations.
Open Scope string_scope.
Open Scope nat_scope.
Open Scope list_scope.

(* ================================================================== *)
(** ** Strings and arrays as the components use them *)

Module Js.

(** [s.includes(t)] on strings: [t] occurs in [s] at some position. *)
Fixpoint includes (s t : string) : bool :=
  String.prefix t s ||
  match s with
  | EmptyString => false
  | String _ s' => includes s' t
  end.

(** [xs.includes(x)] on arrays of strings. *)
Definition arr_includes (xs : list string) (x : string) : bool :=
  existsb (String.eqb x) xs.

(** Truthiness of a string: the empty string is falsy. *)
Definition truthy (s : string) : bool := negb (String.eqb s "").

(** [s.split(",")], written for any separator code unit. *)
Fixpoint split (sep : ascii) (s : string) : list string :=
  match s with
  | EmptyString => [EmptyString]
  | String c s' =>
      if Ascii.eqb c sep then EmptyString :: split sep s'
      else match split sep s' with
           | [] => [String c EmptyString]
           | seg :: rest => String c seg :: rest
           end
  end.

(** [xs.join(",")]. *)
Definition join (sep : string) (xs : list string) : string :=
  String.concat sep xs.

(** [toLowerCase] restricted to the ASCII letters; used to run the
    scenarios.  The search filter itself is stated for any lowering
    function. *)
Definition lower_ascii (c : ascii) : ascii :=
  let n := nat_of_ascii c in
  if Nat.leb 65 n && Nat.leb n 90 then ascii_of_nat (n + 32) else c.

Fixpoint toLowerCaseAscii (s : string) : string :=
  match s with
  | EmptyString => EmptyString
  | String c s' => String (lower_ascii c) (toLowerCaseAscii s')
  end.

(** [Array.from(new Set(xs))]: first occurrences, in insertion order. *)
Fixpoint set_of (seen xs : list string) : list string :=
  match xs with
  | [] => []
  | x :: xs' =>
      if arr_includes seen x then set_of seen xs'
      else x :: set_of (x :: seen) xs'
  end.

(** [xs.sort()] with the default comparison (code unit order). *)
Fixpoint insert_sorted (x : string) (xs : list string) : list string :=
  match xs with
  | [] => [x]
  | y :: ys => if String.leb x y then x :: y :: ys
               else y :: insert_sorted x ys
  end.

Definition sort (xs : list string) : list string :=
  fold_right insert_sorted [] xs.

(** [URLSearchParams]: an ordered list of key/value pairs. *)
Definition URLSearchParams := list (string * string).

Fixpoint get (k : string) (p : URLSearchParams) : option string :=
  match p with
  | [] => None
  | (k', v) :: p' => if String.eqb k' k then Some v else get k p'
  end.

Definition delete (k : string) (p : URLSearchParams) : URLSearchParams :=
  filter (fun kv => negb (String.eqb (fst kv) k)) p.

(** [set] overwrites the first pair with that key and drops the others,
    or appends a new pair. *)
Fixpoint set (k v : string) (p : URLSearchParams) : URLSearchParams :=
  match p with
  | [] => [(k, v)]
  | (k', v') :: p' =>
      if String.eqb k' k then (k, v) :: delete k p'
      else (k', v') :: set k v p'
  end.

(** [window.location]: the path and the parsed query. *)
Record Location := { pathname : string; search : URLSearchParams }.

(** The argument of a router call,
    [`${pathname}${query ? `?${query}` : ""}`], kept structured: an empty
    [url_query] stands for the URL without a question mark. *)
Record Url := { url_path : string; url_query : URLSearchParams }.

(** Calls on the Next.js router. *)
Inductive RouterCall :=
| Replace (u : Url) (scroll : bool)
| Push (path : string).

Definition is_replace (c : RouterCall) : bool :=
  match c with Replace _ _ => true | Push _ => false end.

Definition is_push (path : string) (c : RouterCall) : bool :=
  match c with Replace _ _ => false | Push p => String.eqb p path end.

End Js.

(** The article record shared by both components. *)
Record Article := {
  slug : string;
  title : string;
  description : option string;
  topics : list string
}.

(* ================================================================== *)
(** ** [ArticlesList]: topic selection, filtering and location sync *)

Module ArticlesList.
Import Js.

(** The [useState] cells of the component.  [selectedId] is the identity
    of the array held in [selectedTopics]: every [setSelectedTopics] call
    of the component stores a newly built array. *)
Record State := {
  selectedTopics : list string;
  selectedId : nat;
  visibleCount : nat;
  visibleTopicsCount : nat;
  showOnlyMessage : bool;
  initialized : bool
}.

Definition initial : State :=
  {| selectedTopics := []; selectedId := 0; visibleCount := 10;
     visibleTopicsCount := 10; showOnlyMessage := false;
     initialized := false |}.

(** What the component receives from outside: the [articles] prop, the
    value of [useSearchParams()] and [window.location].  They keep their
    identity for the lifetime of the page. *)
Record Env := {
  articles : list Article;
  searchParams : URLSearchParams;
  location : Location
}.

(** *** Setters *)

Definition setSelectedTopics (v : list string) (s : State) : State :=
  {| selectedTopics := v; selectedId := S (selectedId s);
     visibleCount := visibleCount s;
     visibleTopicsCount := visibleTopicsCount s;
     showOnlyMessage := showOnlyMessage s;
     initialized := initialized s |}.

Definition setVisibleCount (f : nat -> nat) (s : State) : State :=
  {| selectedTopics := selectedTopics s; selectedId := selectedId s;
     visibleCount := f (visibleCount s);
     visibleTopicsCount := visibleTopicsCount s;
     showOnlyMessage := showOnlyMessage s;
     initialized := initialized s |}.

Definition setVisibleTopicsCount (f : nat -> nat) (s : State) : State :=
  {| selectedTopics := selectedTopics s; selectedId := selectedId s;
     visibleCount := visibleCount s;
     visibleTopicsCount := f (visibleTopicsCount s);
     showOnlyMessage := showOnlyMessage s;
     initialized := initialized s |}.

Definition setShowOnlyMessage (f : bool -> bool) (s : State) : State :=
  {| selectedTopics := selectedTopics s; selectedId := selectedId s;
     visibleCount := visibleCount s;
     visibleTopicsCount := visibleTopicsCount s;
     showOnlyMessage := f (showOnlyMessage s);
     initialized := initialized s |}.

Definition setInitialized (b : bool) (s : State) : State :=
  {| selectedTopics := selectedTopics s; selectedId := selectedId s;
     visibleCount := visibleCount s;
     visibleTopicsCount := visibleTopicsCount s;
     showOnlyMessage := showOnlyMessage s;
     initialized := b |}.

(** *** Values derived at each render *)

Definition allTopics (arts : list Article) : list string :=
  sort (set_of [] (flat_map topics arts)).

Definition filteredArticles (arts : list Article)
    (selected : list string) : list Article :=
  if List.length selected =? 0 then arts
  else filter
         (fun article =>
            forallb (fun topic => arr_includes (topics article) topic)
                    selected)
         arts.

Definition displayedArticles (arts : list Article) (s : State) :=
  firstn (visibleCount s) (filteredArticles arts (selectedTopics s)).

Definition displayedTopics (arts : list Article) (s : State) :=
  firstn (visibleTopicsCount s) (allTopics arts).

Definition extraTopics (arts : list Article) (s : State) :=
  filter (fun t => negb (arr_includes (displayedTopics arts s) t))
         (selectedTopics s).

Definition topicsToShow (arts : list Article) (s : State) :=
  displayedTopics arts s ++ extraTopics arts s.

(** *** Handlers *)

(** [updateURL] builds a [URLSearchParams] that it then drops; its only
    effect is the [setSelectedTopics] call. *)
Definition updateURL (topics : list string) (s : State) : State :=
  setSelectedTopics topics s.

(** The updater passed to [setSelectedTopics] in [toggleTopic]. *)
Definition toggle (topic : string) (prev : list string) : list string :=
  if arr_includes prev topic
  then filter (fun t => negb (String.eqb t topic)) prev
  else prev ++ [topic].

(** [toggleTopic]: the updater returns [next], and the [updateURL] call
    inside it stores that same array, so the cell ends with [next] under
    one new identity. *)
Definition toggleTopic (topic : string) (s : State) : State :=
  let s1 := setVisibleCount (fun _ => 10) s in
  updateURL (toggle topic (selectedTopics s1)) s1.

Definition clearSelection (s : State) : State :=
  updateURL [] (setVisibleCount (fun _ => 10) s).

(** The controls of the rendered page. *)
Inductive Event :=
| ClickAllTopics
| ClickTopic (topic : string)
| ClickClearSelection
| ClickMoreTopics
| ClickLoadMore
| ClickToggleMessage.

Definition handle (e : Event) (s : State) : State :=
  match e with
  | ClickAllTopics => clearSelection s
  | ClickTopic topic => toggleTopic topic s
  | ClickClearSelection => clearSelection s
  | ClickMoreTopics => setVisibleTopicsCount (fun prev => prev + 10) s
  | ClickLoadMore => setVisibleCount (fun prev => prev + 10) s
  | ClickToggleMessage => setShowOnlyMessage negb s
  end.

(** The clicks whose handler calls [setSelectedTopics]. *)
Definition setsSelection (e : Event) : bool :=
  match e with
  | ClickAllTopics | ClickTopic _ | ClickClearSelection => true
  | ClickMoreTopics | ClickLoadMore | ClickToggleMessage => false
  end.

(** A control can be clicked only when it is rendered. *)
Definition rendered (arts : list Article) (s : State) (e : Event) : bool :=
  match e with
  | ClickAllTopics => true
  | ClickTopic topic => arr_includes (topicsToShow arts s) topic
  | ClickClearSelection => 0 <? List.length (selectedTopics s)
  | ClickMoreTopics => visibleTopicsCount s <? List.length (allTopics arts)
  | ClickLoadMore =>
      visibleCount s <? List.length (filteredArticles arts (selectedTopics s))
  | ClickToggleMessage => true
  end.

(** *** Effects *)

(** Identity of the [useMemo] result [filteredArticles]: the [articles]
    prop itself when nothing is selected, otherwise the array built when
    the current [selectedTopics] array was first seen. *)
Inductive MemoId := FromProps | Built (selected_id : nat).

Definition memo_eqb (a b : MemoId) : bool :=
  match a, b with
  | FromProps, FromProps => true
  | Built m, Built n => m =? n
  | _, _ => false
  end.

Definition filteredId (s : State) : MemoId :=
  if List.length (selectedTopics s) =? 0 then FromProps
  else Built (selectedId s).

(** The dependencies that can change between two commits; [articles],
    [articles.length], [searchParams] and [router] do not. *)
Record Deps := {
  dep_initialized : bool;
  dep_selected : nat;
  dep_filtered : MemoId
}.

Definition deps_of (s : State) : Deps :=
  {| dep_initialized := initialized s; dep_selected := selectedId s;
     dep_filtered := filteredId s |}.

(** An effect runs after the first render and after a render in which one
    of its dependencies differs from the previous one. *)
Definition runs (prev : option Deps) (same : Deps -> bool) : bool :=
  match prev with None => true | Some d => negb (same d) end.

Definition init_runs (prev : option Deps) (s : State) : bool :=
  runs prev (fun d => Bool.eqb (dep_initialized d) (initialized s)).

Definition sync_runs (prev : option Deps) (s : State) : bool :=
  runs prev (fun d => (dep_selected d =? selectedId s)
                      && Bool.eqb (dep_initialized d) (initialized s)).

Definition notFound_runs (prev : option Deps) (s : State) : bool :=
  runs prev (fun d => memo_eqb (dep_filtered d) (filteredId s)
                      && Bool.eqb (dep_initialized d) (initialized s)).

(** The selection read from the [topics] parameter: [param.split(",")]
    when the parameter is present and not empty. *)
Definition paramTopics (env : Env) : option (list string) :=
  match get "topics" (searchParams env) with
  | Some param => if truthy param then Some (split "," param) else None
  | None => None
  end.

(** The selection after initialisation. *)
Definition paramSelection (env : Env) : list string :=
  match paramTopics env with Some sel => sel | None => [] end.

(** Initialisation effect: the state updates it queues, if any. *)
Definition initEffect (env : Env) (s : State) : option (State -> State) :=
  if negb (initialized s) then
    Some (fun st =>
            setInitialized true
              (match paramTopics env with
               | Some sel => setSelectedTopics sel st
               | None => st
               end))
  else None.

(** The URL written back: [topics] set to the joined selection, or
    deleted when nothing is selected. *)
Definition topicsUrl (env : Env) (selected : list string) : Url :=
  let params := search (location env) in
  {| url_path := pathname (location env);
     url_query := if 0 <? List.length selected
                  then set "topics" (join "," selected) params
                  else delete "topics" params |}.

Definition syncEffect (env : Env) (s : State) : list RouterCall :=
  if initialized s then [Replace (topicsUrl env (selectedTopics s)) true]
  else [].

Definition notFoundCondition (env : Env) (s : State) : bool :=
  initialized s
  && (0 <? List.length (articles env))
  && (List.length (filteredArticles (articles env) (selectedTopics s)) =? 0).

Definition notFoundEffect (env : Env) (s : State) : list RouterCall :=
  if notFoundCondition env s then [Push "/404"] else [].

(** One commit: the effects whose dependencies changed run in source
    order on the values of this render; the result is the router calls
    made and the state after the queued updates, if any were queued. *)
Definition commit (env : Env) (prev : option Deps) (s : State)
  : list RouterCall * option State :=
  let update := if init_runs prev s then initEffect env s else None in
  let calls :=
    (if sync_runs prev s then syncEffect env s else [])
    ++ (if notFound_runs prev s then notFoundEffect env s else []) in
  (calls, option_map (fun u => u s) update).

(** Commits until no update is queued.  Only the initialisation effect
    queues updates, and only once, so a second commit always settles
    (lemma [second_commit_settles]). *)
Definition flush (env : Env) (prev : option Deps) (s : State)
  : list RouterCall * State :=
  match commit env prev s with
  | (calls, None) => (calls, s)
  | (calls, Some s') =>
      (calls ++ fst (commit env (Some (deps_of s)) s'), s')
  end.

Definition mount (env : Env) : list RouterCall * State :=
  flush env None initial.

(** A click: the handler runs, then the render it causes is committed
    against the dependencies of the previous render. *)
Definition step (env : Env) (s : State) (e : Event)
  : list RouterCall * State :=
  flush env (Some (deps_of s)) (handle e s).

(** All router calls and the last state of a session. *)
Fixpoint run (env : Env) (s : State) (es : list Event)
  : list RouterCall * State :=
  match es with
  | [] => ([], s)
  | e :: es' =>
      let '(calls, s') := step env s e in
      let '(calls', s'') := run env s' es' in
      (calls ++ calls', s'')
  end.

(** States of a mounted component. *)
Inductive reachable (env : Env) : State -> Prop :=
| reach_mount : reachable env (snd (mount env))
| reach_step s e :
    reachable env s ->
    rendered (articles env) s e = true ->
    reachable env (snd (step env s e)).

Definition count_push (path : string) (calls : list RouterCall) : nat :=
  List.length (filter (is_push path) calls).

End ArticlesList.

(* ================================================================== *)
(** ** [HomePageContent]: debounced search and location sync *)

Module HomePageContent.
Import Js.

(** The debounce delay passed to [debounce] and the delay of the
    fade-in timeout. *)
Definition searchDelay : nat := 300.
Definition visibleDelay : nat := 100.

(** The [useState] cells, and the two timeouts the component owns:
    [searchTimer] is the [timer] variable captured by the debounced
    [handleSearch] (its pending argument and the milliseconds left),
    [visibleTimer] the fade-in timeout. *)
Record State := {
  searchTerm : string;
  filteredArticles : list Article;
  isFocused : bool;
  visible : bool;
  searchTimer : option (string * nat);
  visibleTimer : option nat
}.

Record Env := {
  articles : list Article;
  location : Location
}.

Definition initial (env : Env) : State :=
  {| searchTerm := ""; filteredArticles := articles env;
     isFocused := false; visible := false;
     searchTimer := None; visibleTimer := None |}.

Definition setSearchTerm (v : string) (s : State) : State :=
  {| searchTerm := v; filteredArticles := filteredArticles s;
     isFocused := isFocused s; visible := visible s;
     searchTimer := searchTimer s; visibleTimer := visibleTimer s |}.

Definition setFilteredArticles (v : list Article) (s : State) : State :=
  {| searchTerm := searchTerm s; filteredArticles := v;
     isFocused := isFocused s; visible := visible s;
     searchTimer := searchTimer s; visibleTimer := visibleTimer s |}.

Definition setIsFocused (b : bool) (s : State) : State :=
  {| searchTerm := searchTerm s; filteredArticles := filteredArticles s;
     isFocused := b; visible := visible s;
     searchTimer := searchTimer s; visibleTimer := visibleTimer s |}.

Definition setVisible (b : bool) (s : State) : State :=
  {| searchTerm := searchTerm s; filteredArticles := filteredArticles s;
     isFocused := isFocused s; visible := b;
     searchTimer := searchTimer s; visibleTimer := visibleTimer s |}.

Definition setSearchTimer (t : option (string * nat)) (s : State) : State :=
  {| searchTerm := searchTerm s; filteredArticles := filteredArticles s;
     isFocused := isFocused s; visible := visible s;
     searchTimer := t; visibleTimer := visibleTimer s |}.

Definition setVisibleTimer (t : option nat) (s : State) : State :=
  {| searchTerm := searchTerm s; filteredArticles := filteredArticles s;
     isFocused := isFocused s; visible := visible s;
     searchTimer := searchTimer s; visibleTimer := t |}.

Section Search.
(** [String.prototype.toLowerCase]. *)
Variable toLowerCase : string -> string.

(** The predicate given to [articles.filter] in [handleSearch]; the
    [description && ...] operand is falsy for a missing or empty
    description. *)
Definition matches (term : string) (article : Article) : bool :=
  includes (toLowerCase (title article)) (toLowerCase term)
  || match description article with
     | Some d => truthy d
                 && includes (toLowerCase d) (toLowerCase term)
     | None => false
     end.

(** The function wrapped by [debounce] in [handleSearch]: the value it
    passes to [setFilteredArticles]. *)
Definition search (arts : list Article) (term : string) : list Article :=
  if negb (truthy term) then arts
  else filter (matches term) arts.

(** [handleSearch(term)]: the debounced wrapper cancels the pending
    timeout and arms a new one. *)
Definition handleSearch (term : string) (s : State) : State :=
  setSearchTimer (Some (term, searchDelay)) s.

(** The URL written back: [search] set to the term, or deleted when the
    term is empty; the other parameters are left as they are. *)
Definition searchUrl (env : Env) (term : string) : Url :=
  let params := Js.search (location env) in
  {| url_path := pathname (location env);
     url_query := if truthy term then set "search" term params
                  else delete "search" params |}.

(** The search parameter read at mount: [params.get("search") ?? ""]. *)
Definition initialSearch (env : Env) : string :=
  match get "search" (Js.search (location env)) with
  | Some v => v
  | None => ""
  end.

(** The effects that depend on [searchTerm] (the second and third
    [useEffect]), on the values of the render of [s]. *)
Definition termEffects (env : Env) (s : State)
  : list RouterCall * State :=
  ([Replace (searchUrl env (searchTerm s)) false],
   handleSearch (searchTerm s) s).

(** The commit of the first render: all four effects run; the first
    queues [setSearchTerm(initialSearch)], the last arms the fade-in
    timeout.  The result tells whether the queued update changes the
    state, in which case React renders again. *)
Definition mountCommit (env : Env) (s : State)
  : list RouterCall * State * bool :=
  let '(calls, s1) := termEffects env s in
  let s2 := setVisibleTimer (Some visibleDelay) s1 in
  let v := initialSearch env in
  (calls, setSearchTerm v s2, negb (String.eqb v (searchTerm s))).

(** The commit of a later render: the effects on [searchTerm] run when
    it differs from the term of the previous render. *)
Definition commit (env : Env) (prev : string) (s : State)
  : list RouterCall * State :=
  if String.eqb prev (searchTerm s) then ([], s) else termEffects env s.

Definition mount (env : Env) : list RouterCall * State :=
  let '(calls, s, rerender) := mountCommit env (initial env) in
  if rerender then
    let '(calls', s') := commit env "" s in (calls ++ calls', s')
  else (calls, s).

(** What the user and the clock can do. *)
Inductive Event :=
| Change (value : string)
| ClickClear
| Focus
| Blur
| Elapse (ms : nat).

(** The clear button is rendered only for a non-empty term. *)
Definition rendered (s : State) (e : Event) : bool :=
  match e with
  | ClickClear => truthy (searchTerm s)
  | _ => true
  end.

(** [ms] milliseconds pass: a timeout whose delay has run out calls its
    callback, the others keep counting. *)
Definition elapse (env : Env) (ms : nat) (s : State) : State :=
  let s1 :=
    match searchTimer s with
    | Some (term, due) =>
        if due <=? ms
        then setFilteredArticles (search (articles env) term)
               (setSearchTimer None s)
        else setSearchTimer (Some (term, due - ms)) s
    | None => s
    end in
  match visibleTimer s1 with
  | Some due =>
      if due <=? ms then setVisible true (setVisibleTimer None s1)
      else setVisibleTimer (Some (due - ms)) s1
  | None => s1
  end.

(** Whether the debounced filter task fires during the event. *)
Definition fires (s : State) (e : Event) : bool :=
  match e, searchTimer s with
  | Elapse ms, Some (_, due) => due <=? ms
  | _, _ => false
  end.

Definition step (env : Env) (s : State) (e : Event)
  : list RouterCall * State :=
  match e with
  | Change value => commit env (searchTerm s) (setSearchTerm value s)
  | ClickClear => commit env (searchTerm s) (setSearchTerm "" s)
  | Focus => ([], setIsFocused true s)
  | Blur => ([], setIsFocused false s)
  | Elapse ms => ([], elapse env ms s)
  end.

Fixpoint run (env : Env) (s : State) (es : list Event)
  : list RouterCall * State :=
  match es with
  | [] => ([], s)
  | e :: es' =>
      let '(calls, s') := step env s e in
      let '(calls', s'') := run env s' es' in
      (calls ++ calls', s'')
  end.

(** No debounced filter task fires during the session. *)
Fixpoint quiet (env : Env) (s : State) (es : list Event) : bool :=
  match es with
  | [] => true
  | e :: es' => negb (fires s e) && quiet env (snd (step env s e)) es'
  end.

Inductive reachable (env : Env) : State -> Prop :=
| reach_mount : reachable env (snd (mount env))
| reach_step s e :
    reachable env s ->
    rendered s e = true ->
    reachable env (snd (step env s e)).

End Search.

End HomePageContent.

(* ================================================================== *)
(** ** The contracts in the words of the specification *)

(** The article's topic set contains every selected topic. *)
Definition spec_hasEveryTopic (selected : list string) (a : Article) : Prop :=
  forall t, In t selected -> In t (topics a).

(** The predicate of the topic filter, as the component writes it. *)
Definition hasEveryTopic (selected : list string) (a : Article) : bool :=
  forallb (fun topic => Js.arr_includes (topics a) topic) selected.

(** [hay] contains [q] as a substring once both are lowered. *)
Definition spec_containsCI (toLowerCase : string -> string)
    (q hay : string) : Prop :=
  exists pre post,
    toLowerCase hay = (pre ++ toLowerCase q ++ post)%string.

(** The title or the description contains the query, case-insensitively. *)
Definition spec_searchMatch (toLowerCase : string -> string)
    (q : string) (a : Article) : Prop :=
  spec_containsCI toLowerCase q (title a)
  \/ exists d, description a = Some d /\ spec_containsCI toLowerCase q d.

(** A selection with its empty-string segments removed. *)
Definition withoutEmpty (selected : list string) : list string :=
  filter Js.truthy selected.

(** The settled-or-pending condition of the debounce: a pending filter task
    is for the current term and is due within the debounce delay; with no
    task pending, the list already shows the search result for the current
    term. *)
Definition debounce_settled (toLowerCase : string -> string)
    (env : HomePageContent.Env) (s : HomePageContent.State) : Prop :=
  match HomePageContent.searchTimer s with
  | Some (term, due) =>
      term = HomePageContent.searchTerm s /\ 0 < due <= 300
  | None =>
      HomePageContent.filteredArticles s
      = HomePageContent.search toLowerCase (HomePageContent.articles env)
          (HomePageContent.searchTerm s)
  end.

(* ================================================================== *)
(** ** Scenarios *)

Module Scenario.
Import Js.

Definition rustApis : Article :=
  {| slug := "rust-apis"; title := "Rust APIs"; description := None;
     topics := ["Rust"] |}.

Definition onnxGuide : Article :=
  {| slug := "onnx-guide"; title := "ONNX Guide"; description := None;
     topics := ["AI"] |}.

Definition aiOnly : Article :=
  {| slug := "ai"; title := "Explainable AI";
     description := Some "Making machine learning transparent";
     topics := ["AI"] |}.

Definition aiAndDatabases : Article :=
  {| slug := "ai-db"; title := "Vector stores";
     description := Some ""; topics := ["AI"; "Databases"] |}.

Definition aiBlankTopic : Article :=
  {| slug := "ai-blank"; title := "Prompting notes";
     description := None; topics := ["AI"; ""] |}.

Definition home (query : URLSearchParams) : Location :=
  {| pathname := "/"; search := query |}.

Definition listEnv (arts : list Article) (query : URLSearchParams)
  : ArticlesList.Env :=
  {| ArticlesList.articles := arts;
     ArticlesList.searchParams := query;
     ArticlesList.location := home query |}.

Definition pageEnv (arts : list Article) (query : URLSearchParams)
  : HomePageContent.Env :=
  {| HomePageContent.articles := arts;
     HomePageContent.location := home query |}.

(** [?search=onnx&topics=AI,Databases] *)
Definition sharedQuery : URLSearchParams :=
  [("search", "onnx"); ("topics", "AI,Databases")].

Definition selection (sel : list string) : ArticlesList.State :=
  ArticlesList.setInitialized true
    (ArticlesList.setSelectedTopics sel ArticlesList.initial).

End Scenario.

(* ------------------------------------------------------------------ *)
(** *** Facts about the string and array operations *)

Lemma prefix_append (t s : string) :
  String.prefix t s = true <-> exists post, s = (t ++ post)%string.
Proof.
  revert s; induction t as [|c t IH]; intros s.
  - destruct s; simpl; split; eauto.
  - destruct s as [|d s]; simpl.
    + split; [discriminate | intros [post H]; discriminate].
    + destruct (ascii_dec c d) as [->|Hcd].
      * rewrite IH. split; intros [post H]; exists post.
        -- now rewrite H.
        -- now inversion H.
      * split; [discriminate | intros [post H]; inversion H; congruence].
Qed.

(** [includes] decides the substring relation. *)
Lemma includes_spec (s t : string) :
  Js.includes s t = true <-> exists pre post, s = (pre ++ t ++ post)%string.
Proof.
  induction s as [|c s IH].
  - change (Js.includes "" t) with (String.prefix t "" || false).
    rewrite orb_false_r, prefix_append. split.
    + intros [post H]. now exists "", post.
    + intros [pre [post H]]. destruct pre; simpl in H.
      * now exists post.
      * discriminate.
  - change (Js.includes (String c s) t)
      with (String.prefix t (String c s) || Js.includes s t).
    rewrite orb_true_iff, prefix_append, IH. split.
    + intros [[post H] | [pre [post H]]].
      * now exists "", post.
      * exists (String c pre), post. simpl. now rewrite H.
    + intros [pre [post H]]. destruct pre as [|d pre]; simpl in H.
      * left. now exists post.
      * right. inversion H. now exists pre, post.
Qed.

Lemma includes_empty (s : string) : Js.includes s "" = true.
Proof. destruct s; reflexivity. Qed.

Lemma arr_includes_In (xs : list string) (x : string) :
  Js.arr_includes xs x = true <-> In x xs.
Proof.
  unfold Js.arr_includes. rewrite existsb_exists. split.
  - intros [y [Hy He]]. apply String.eqb_eq in He. now subst.
  - intros H. exists x. split; [assumption | apply String.eqb_refl].
Qed.

Lemma arr_includes_false (xs : list string) (x : string) :
  Js.arr_includes xs x = false <-> ~ In x xs.
Proof.
  rewrite <- arr_includes_In. destruct (Js.arr_includes xs x); split;
    congruence.
Qed.

Lemma split_nonempty (sep : ascii) (s : string) : Js.split sep s <> [].
Proof.
  destruct s as [|c s]; simpl; [discriminate|].
  destruct (Ascii.eqb c sep); [discriminate|].
  destruct (Js.split sep s); discriminate.
Qed.

(** Joining the segments with the separator gives the string back. *)
Lemma join_split (sep : ascii) (s : string) :
  Js.join (String sep "") (Js.split sep s) = s.
Proof.
  unfold Js.join. induction s as [|c s IH]; [reflexivity|].
  simpl. destruct (Ascii.eqb_spec c sep) as [->|Hne].
  - pose proof (split_nonempty sep s) as Hn.
    destruct (Js.split sep s) as [|seg rest]; [congruence|].
    change (String.concat (String sep "") ("" :: seg :: rest))
      with (String sep (String.concat (String sep "") (seg :: rest))).
    now rewrite IH.
  - pose proof (split_nonempty sep s) as Hn.
    destruct (Js.split sep s) as [|seg rest]; [congruence|].
    destruct rest as [|seg' rest].
    + simpl in *. now rewrite IH.
    + simpl in *. now rewrite IH.
Qed.

Lemma filter_all (A : Type) (f : A -> bool) (l : list A) :
  (forall x, In x l -> f x = true) -> filter f l = l.
Proof.
  induction l as [|a l IH]; intros H; [reflexivity|].
  simpl. rewrite (H a (or_introl eq_refl)). f_equal.
  apply IH. intros x Hx. apply H. now right.
Qed.

Lemma filter_none (A : Type) (f : A -> bool) (l : list A) :
  (forall x, In x l -> f x = false) -> filter f l = [].
Proof.
  induction l as [|a l IH]; intros H; [reflexivity|].
  simpl. rewrite (H a (or_introl eq_refl)).
  apply IH. intros x Hx. apply H. now right.
Qed.

Lemma length_zero_nil (A : Type) (l : list A) :
  (List.length l =? 0) = true <-> l = [].
Proof. destruct l; simpl; split; intros H; congruence. Qed.

(* ================================================================== *)
(** ** The topic filter *)

Lemma hasEveryTopic_spec (selected : list string) (a : Article) :
  hasEveryTopic selected a = true <-> spec_hasEveryTopic selected a.
Proof.
  unfold hasEveryTopic, spec_hasEveryTopic. rewrite forallb_forall.
  split; intros H t Ht; apply arr_includes_In; auto.
Qed.

Lemma filteredArticles_filter (arts : list Article) (selected : list string) :
  ArticlesList.filteredArticles arts selected
  = filter (hasEveryTopic selected) arts.
Proof.
  unfold ArticlesList.filteredArticles.
  destruct selected as [|t sel]; [|reflexivity].
  simpl. symmetry. now apply filter_all.
Qed.

(** C1. The topic filter returns exactly the input articles, in input
    order, whose topic list contains every selected topic (AND across the
    selection); with nothing selected it returns the input collection
    itself. *)
Theorem C1_topic_filter_and (arts : list Article) (selected : list string) :
  ArticlesList.filteredArticles arts selected
    = filter (hasEveryTopic selected) arts
  /\ (forall a, hasEveryTopic selected a = true
                <-> spec_hasEveryTopic selected a)
  /\ (forall a, In a (ArticlesList.filteredArticles arts selected)
                <-> In a arts /\ spec_hasEveryTopic selected a)
  /\ ArticlesList.filteredArticles arts [] = arts.
Proof.
  split; [apply filteredArticles_filter|].
  split; [intros a; apply hasEveryTopic_spec|].
  split; [|reflexivity].
  intros a. rewrite filteredArticles_filter, filter_In.
  now rewrite hasEveryTopic_spec.
Qed.

(* ================================================================== *)
(** ** The search filter *)

Section SearchFilter.
Variable toLowerCase : string -> string.

Hypothesis toLowerCase_empty : toLowerCase "" = "".

Lemma matches_spec (q : string) (a : Article) :
  HomePageContent.matches toLowerCase q a = true
  <-> spec_searchMatch toLowerCase q a.
Proof.
  unfold HomePageContent.matches, spec_searchMatch, spec_containsCI.
  rewrite orb_true_iff, includes_spec. split.
  - intros [H | H]; [now left|].
    destruct (description a) as [d|]; [|discriminate].
    apply andb_true_iff in H. destruct H as [_ H].
    apply includes_spec in H. right. now exists d.
  - intros [H | [d [Hd H]]]; [now left|].
    rewrite Hd. unfold Js.truthy.
    destruct (String.eqb_spec d "") as [->|Hne].
    + left. rewrite toLowerCase_empty in H.
      destruct H as [pre [post H]].
      destruct pre; [|discriminate]. simpl in H.
      destruct (toLowerCase q); [|discriminate].
      now exists "", (toLowerCase (title a)).
    + right. simpl. now apply includes_spec.
Qed.

Lemma matches_empty (a : Article) :
  HomePageContent.matches toLowerCase "" a = true.
Proof.
  unfold HomePageContent.matches.
  now rewrite toLowerCase_empty, includes_empty.
Qed.

Lemma search_filter (arts : list Article) (q : string) :
  HomePageContent.search toLowerCase arts q
  = filter (HomePageContent.matches toLowerCase q) arts.
Proof.
  unfold HomePageContent.search, Js.truthy.
  destruct (String.eqb_spec q "") as [->|Hne]; [|reflexivity].
  simpl. symmetry. apply filter_all. intros a _. apply matches_empty.
Qed.

End SearchFilter.

(** C2. For a lowering function that keeps the empty string empty, the
    search filter returns exactly the input articles, in input order, whose
    title or description contains the query as a substring after lowering
    both; for the empty query it returns the input collection itself. *)
Theorem C2_search_filter_substring
    (toLowerCase : string -> string)
    (Hempty : toLowerCase "" = "")
    (arts : list Article) (q : string) :
  HomePageContent.search toLowerCase arts q
    = filter (HomePageContent.matches toLowerCase q) arts
  /\ (forall a, HomePageContent.matches toLowerCase q a = true
                <-> spec_searchMatch toLowerCase q a)
  /\ (forall a, In a (HomePageContent.search toLowerCase arts q)
                <-> In a arts /\ spec_searchMatch toLowerCase q a)
  /\ HomePageContent.search toLowerCase arts "" = arts.
Proof.
  split; [now apply search_filter|].
  split; [intros a; now apply matches_spec|].
  split; [|reflexivity].
  intros a. rewrite search_filter, filter_In by assumption.
  now rewrite matches_spec.
Qed.

(* ================================================================== *)
(** ** The toggle operation *)

Lemma toggle_absent (t : string) (sel : list string) :
  ~ In t sel -> ArticlesList.toggle t sel = sel ++ [t].
Proof.
  intros H. unfold ArticlesList.toggle.
  apply arr_includes_false in H. now rewrite H.
Qed.

Lemma toggle_present (t : string) (sel : list string) :
  In t sel ->
  ArticlesList.toggle t sel
  = filter (fun x => negb (String.eqb x t)) sel.
Proof.
  intros H. unfold ArticlesList.toggle.
  apply arr_includes_In in H. now rewrite H.
Qed.

Lemma In_remove (t x : string) (sel : list string) :
  In x (filter (fun y => negb (String.eqb y t)) sel) <-> In x sel /\ x <> t.
Proof.
  rewrite filter_In, negb_true_iff, String.eqb_neq. tauto.
Qed.

Lemma remove_absent (t : string) (sel : list string) :
  ~ In t sel -> filter (fun y => negb (String.eqb y t)) sel = sel.
Proof.
  intros H. apply filter_all. intros x Hx.
  apply negb_true_iff, String.eqb_neq. congruence.
Qed.

Lemma toggle_twice (t : string) (sel : list string) :
  ArticlesList.toggle t (ArticlesList.toggle t sel)
  = if Js.arr_includes sel t
    then filter (fun x => negb (String.eqb x t)) sel ++ [t]
    else sel.
Proof.
  destruct (Js.arr_includes sel t) eqn:E.
  - apply arr_includes_In in E. rewrite (toggle_present t sel E).
    apply toggle_absent. rewrite In_remove. tauto.
  - apply arr_includes_false in E. rewrite (toggle_absent t sel E).
    rewrite toggle_present by (apply in_or_app; right; now left).
    rewrite filter_app, (remove_absent t sel E). simpl.
    rewrite String.eqb_refl. simpl. apply app_nil_r.
Qed.

Lemma selected_toggleTopic (t : string) (s : ArticlesList.State) :
  ArticlesList.selectedTopics (ArticlesList.toggleTopic t s)
  = ArticlesList.toggle t (ArticlesList.selectedTopics s).
Proof. reflexivity. Qed.

(** C4, as the claim states it, fails: toggling a selected topic that is
    not last moves it to the end. *)
Lemma C4_toggle_twice_reorders :
  ArticlesList.selectedTopics
    (ArticlesList.toggleTopic "AI"
       (ArticlesList.toggleTopic "AI" (Scenario.selection ["AI"; "Databases"])))
  = ["Databases"; "AI"]
  /\ ArticlesList.selectedTopics
       (ArticlesList.toggleTopic "AI"
          (ArticlesList.toggleTopic "AI"
             (Scenario.selection ["AI"; "Databases"])))
     <> ArticlesList.selectedTopics (Scenario.selection ["AI"; "Databases"]).
Proof. split; [reflexivity | discriminate]. Qed.

(** C4 (amended). Toggling a topic twice restores the membership of
    [selectedTopics]. It restores the sequence itself when the topic was
    not selected; when it was selected, the result is the original sequence
    with that topic removed and appended at the end. *)
Theorem C4_toggle_twice (t : string) (s : ArticlesList.State) :
  let s2 := ArticlesList.toggleTopic t (ArticlesList.toggleTopic t s) in
  (forall x, In x (ArticlesList.selectedTopics s2)
             <-> In x (ArticlesList.selectedTopics s))
  /\ ArticlesList.selectedTopics s2
     = (if Js.arr_includes (ArticlesList.selectedTopics s) t
        then filter (fun x => negb (String.eqb x t))
                    (ArticlesList.selectedTopics s) ++ [t]
        else ArticlesList.selectedTopics s).
Proof.
  intros s2. subst s2. rewrite !selected_toggleTopic, toggle_twice.
  split; [|reflexivity].
  intros x. destruct (Js.arr_includes (ArticlesList.selectedTopics s) t) eqn:E;
    [|tauto].
  apply arr_includes_In in E. rewrite in_app_iff, In_remove. simpl.
  destruct (string_dec x t) as [->|Hne]; intuition congruence.
Qed.

(* ================================================================== *)
(** ** The rendered topic controls *)

(** C9. In every state, each selected topic is among [topicsToShow], so
    its toggle button is rendered; a selected topic outside the revealed
    prefix of the topic universe is supplied by [extraTopics]. *)
Theorem C9_selected_topics_are_shown
    (arts : list Article) (s : ArticlesList.State) (t : string)
    (Hsel : In t (ArticlesList.selectedTopics s)) :
  In t (ArticlesList.topicsToShow arts s)
  /\ (~ In t (ArticlesList.displayedTopics arts s)
      -> In t (ArticlesList.extraTopics arts s))
  /\ ArticlesList.rendered arts s (ArticlesList.ClickTopic t) = true.
Proof.
  assert (Hextra : ~ In t (ArticlesList.displayedTopics arts s)
                   -> In t (ArticlesList.extraTopics arts s)).
  { intros Hn. unfold ArticlesList.extraTopics. apply filter_In.
    split; [assumption|]. apply negb_true_iff.
    now apply arr_includes_false. }
  assert (Hshow : In t (ArticlesList.topicsToShow arts s)).
  { unfold ArticlesList.topicsToShow. apply in_or_app.
    destruct (in_dec string_dec t (ArticlesList.displayedTopics arts s));
      [now left | right; auto]. }
  repeat split; try assumption.
  simpl. now apply arr_includes_In.
Qed.

(** The scenario of C9: a selection read from the location whose topics
    lie outside a one-topic prefix. *)
Lemma C9_witness :
  let s := ArticlesList.setVisibleTopicsCount (fun _ => 1)
             (Scenario.selection ["Databases"]) in
  let arts := [Scenario.aiOnly; Scenario.aiAndDatabases] in
  In "Databases" (ArticlesList.selectedTopics s)
  /\ ArticlesList.displayedTopics arts s = ["AI"]
  /\ In "Databases" (ArticlesList.topicsToShow arts s).
Proof.
  intros s arts.
  assert (H : In "Databases" (ArticlesList.selectedTopics s))
    by (simpl; auto).
  split; [exact H|]. split; [reflexivity|].
  exact (proj1 (C9_selected_topics_are_shown arts s "Databases" H)).
Defined.

(** The search scenario of the specification, with ASCII lowering:
    searching for "rust" keeps the first article only. *)
Lemma C2_witness :
  Js.toLowerCaseAscii "" = ""
  /\ HomePageContent.search Js.toLowerCaseAscii
       [Scenario.rustApis; Scenario.onnxGuide] "rust"
     = [Scenario.rustApis]
  /\ spec_searchMatch Js.toLowerCaseAscii "rust" Scenario.rustApis.
Proof.
  split; [reflexivity|]. split; [reflexivity|].
  apply (proj1 (proj2 (C2_search_filter_substring Js.toLowerCaseAscii
                         eq_refl [Scenario.rustApis; Scenario.onnxGuide]
                         "rust"))).
  reflexivity.
Defined.

(* ================================================================== *)
(** ** Commits of [ArticlesList] *)

Lemma handle_initialized (e : ArticlesList.Event) (s : ArticlesList.State) :
  ArticlesList.initialized (ArticlesList.handle e s)
  = ArticlesList.initialized s.
Proof. destruct e; reflexivity. Qed.

(** The state reached by the mount commits: the selection read from the
    parameter, and the initialised flag. *)
Lemma mount_state (env : ArticlesList.Env) :
  ArticlesList.selectedTopics (snd (ArticlesList.mount env))
    = ArticlesList.paramSelection env
  /\ ArticlesList.initialized (snd (ArticlesList.mount env)) = true.
Proof.
  unfold ArticlesList.mount, ArticlesList.flush, ArticlesList.commit,
    ArticlesList.initEffect, ArticlesList.paramSelection.
  simpl. destruct (ArticlesList.paramTopics env); split; reflexivity.
Qed.

Lemma mount_calls (env : ArticlesList.Env) :
  fst (ArticlesList.mount env)
  = Js.Replace (ArticlesList.topicsUrl env (ArticlesList.paramSelection env))
               true
    :: ArticlesList.notFoundEffect env (snd (ArticlesList.mount env)).
Proof.
  unfold ArticlesList.mount, ArticlesList.flush, ArticlesList.commit,
    ArticlesList.initEffect, ArticlesList.paramSelection.
  simpl. destruct (ArticlesList.paramTopics env);
    rewrite ?andb_false_r; reflexivity.
Qed.

(** Only the initialisation effect queues an update, and the state it
    produces queues none: the second commit of [flush] is the last. *)
Lemma second_commit_settles (env : ArticlesList.Env)
    (prev : option ArticlesList.Deps) (s s' : ArticlesList.State) :
  snd (ArticlesList.commit env prev s) = Some s' ->
  snd (ArticlesList.commit env (Some (ArticlesList.deps_of s)) s') = None.
Proof.
  unfold ArticlesList.commit. simpl. intros H.
  destruct (ArticlesList.init_runs prev s); [|discriminate].
  unfold ArticlesList.initEffect in H.
  destruct (ArticlesList.initialized s); [discriminate|].
  simpl in H. injection H as <-.
  match goal with
  | |- option_map _ (if ?b then _ else _) = _ => destruct b
  end; reflexivity.
Qed.

Lemma step_commit (env : ArticlesList.Env) (s : ArticlesList.State)
    (e : ArticlesList.Event) :
  ArticlesList.step env s e
  = (fst (ArticlesList.commit env (Some (ArticlesList.deps_of s))
            (ArticlesList.handle e s)),
     ArticlesList.handle e s).
Proof.
  unfold ArticlesList.step, ArticlesList.flush, ArticlesList.commit,
    ArticlesList.init_runs, ArticlesList.runs.
  simpl. rewrite handle_initialized, Bool.eqb_reflx. reflexivity.
Qed.

Lemma step_calls (env : ArticlesList.Env) (s : ArticlesList.State)
    (e : ArticlesList.Event) :
  fst (ArticlesList.step env s e)
  = fst (ArticlesList.commit env (Some (ArticlesList.deps_of s))
           (ArticlesList.handle e s)).
Proof. now rewrite step_commit. Qed.

Lemma step_state (env : ArticlesList.Env) (s : ArticlesList.State)
    (e : ArticlesList.Event) :
  snd (ArticlesList.step env s e) = ArticlesList.handle e s.
Proof. now rewrite step_commit. Qed.

Lemma reachable_initialized (env : ArticlesList.Env)
    (s : ArticlesList.State) :
  ArticlesList.reachable env s -> ArticlesList.initialized s = true.
Proof.
  induction 1 as [|s e Hr IH Hrend].
  - apply mount_state.
  - now rewrite step_state, handle_initialized.
Qed.

Lemma notFoundCondition_spec (env : ArticlesList.Env)
    (s : ArticlesList.State) :
  ArticlesList.notFoundCondition env s = true
  <-> ArticlesList.initialized s = true
      /\ ArticlesList.articles env <> []
      /\ ArticlesList.filteredArticles (ArticlesList.articles env)
           (ArticlesList.selectedTopics s) = [].
Proof.
  unfold ArticlesList.notFoundCondition.
  rewrite !andb_true_iff, length_zero_nil, Nat.ltb_lt.
  assert (Hlen : 0 < List.length (ArticlesList.articles env)
                 <-> ArticlesList.articles env <> []).
  { destruct (ArticlesList.articles env); simpl; split; intros H;
      try lia; congruence. }
  rewrite Hlen. tauto.
Qed.

Lemma count_push_app (p : string) (xs ys : list Js.RouterCall) :
  ArticlesList.count_push p (xs ++ ys)
  = ArticlesList.count_push p xs + ArticlesList.count_push p ys.
Proof.
  unfold ArticlesList.count_push. now rewrite filter_app, length_app.
Qed.

Lemma count_push_sync (env : ArticlesList.Env) (s : ArticlesList.State)
    (b : bool) (p : string) :
  ArticlesList.count_push p
    (if b then ArticlesList.syncEffect env s else []) = 0.
Proof.
  unfold ArticlesList.syncEffect.
  destruct b, (ArticlesList.initialized s); reflexivity.
Qed.

Lemma count_push_notFound (env : ArticlesList.Env) (s : ArticlesList.State)
    (b : bool) :
  ArticlesList.count_push "/404"
    (if b then ArticlesList.notFoundEffect env s else [])
  = if b && ArticlesList.notFoundCondition env s then 1 else 0.
Proof.
  unfold ArticlesList.notFoundEffect.
  destruct b, (ArticlesList.notFoundCondition env s); reflexivity.
Qed.

Lemma commit_count_push (env : ArticlesList.Env)
    (prev : option ArticlesList.Deps) (s : ArticlesList.State) :
  ArticlesList.count_push "/404" (fst (ArticlesList.commit env prev s))
  = if ArticlesList.notFound_runs prev s
       && ArticlesList.notFoundCondition env s
    then 1 else 0.
Proof.
  unfold ArticlesList.commit. simpl.
  now rewrite count_push_app, count_push_sync, count_push_notFound.
Qed.

(** After a click that sets the selection, the not-found effect is skipped
    only when the filtered result is the [articles] prop before and
    after. *)
Lemma notFound_runs_setSelected (s : ArticlesList.State)
    (v : list string) (f : nat -> nat) :
  ArticlesList.notFound_runs (Some (ArticlesList.deps_of s))
    (ArticlesList.setSelectedTopics v (ArticlesList.setVisibleCount f s))
  = negb ((List.length (ArticlesList.selectedTopics s) =? 0)
          && (List.length v =? 0)).
Proof.
  unfold ArticlesList.notFound_runs, ArticlesList.runs,
    ArticlesList.deps_of, ArticlesList.filteredId. simpl.
  rewrite Bool.eqb_reflx, andb_true_r.
  assert (E : (ArticlesList.selectedId s =? S (ArticlesList.selectedId s))
              = false) by (apply Nat.eqb_neq; lia).
  destruct (List.length (ArticlesList.selectedTopics s) =? 0),
    (List.length v =? 0); simpl; rewrite ?E; reflexivity.
Qed.

Lemma notFound_runs_same (s s' : ArticlesList.State) :
  ArticlesList.selectedTopics s' = ArticlesList.selectedTopics s ->
  ArticlesList.selectedId s' = ArticlesList.selectedId s ->
  ArticlesList.initialized s' = ArticlesList.initialized s ->
  ArticlesList.notFound_runs (Some (ArticlesList.deps_of s)) s' = false.
Proof.
  intros H1 H2 H3.
  unfold ArticlesList.notFound_runs, ArticlesList.runs,
    ArticlesList.deps_of, ArticlesList.filteredId. simpl.
  rewrite H1, H2, H3, Bool.eqb_reflx, andb_true_r.
  apply negb_false_iff.
  destruct (List.length (ArticlesList.selectedTopics s) =? 0); simpl;
    [reflexivity | apply Nat.eqb_refl].
Qed.

Lemma condition_needs_selection (env : ArticlesList.Env)
    (s : ArticlesList.State) :
  ArticlesList.notFoundCondition env s = true ->
  (List.length (ArticlesList.selectedTopics s) =? 0) = false.
Proof.
  intros H. apply notFoundCondition_spec in H. destruct H as [_ [Hne Hf]].
  destruct (ArticlesList.selectedTopics s) eqn:E; [|reflexivity].
  change (ArticlesList.articles env = []) in Hf. congruence.
Qed.

Lemma step_count_push (env : ArticlesList.Env) (s : ArticlesList.State)
    (e : ArticlesList.Event) :
  ArticlesList.count_push "/404" (fst (ArticlesList.step env s e))
  = if ArticlesList.setsSelection e
       && ArticlesList.notFoundCondition env (snd (ArticlesList.step env s e))
    then 1 else 0.
Proof.
  rewrite step_calls, step_state, commit_count_push.
  assert (Hset : forall v f,
    ArticlesList.notFound_runs (Some (ArticlesList.deps_of s))
      (ArticlesList.setSelectedTopics v (ArticlesList.setVisibleCount f s))
    && ArticlesList.notFoundCondition env
         (ArticlesList.setSelectedTopics v (ArticlesList.setVisibleCount f s))
    = ArticlesList.notFoundCondition env
        (ArticlesList.setSelectedTopics v
           (ArticlesList.setVisibleCount f s))).
  { intros v f. rewrite notFound_runs_setSelected.
    destruct (ArticlesList.notFoundCondition env _) eqn:Hc;
      [|apply andb_false_r].
    apply condition_needs_selection in Hc. simpl in Hc.
    rewrite Hc, andb_false_r. reflexivity. }
  destruct e; simpl ArticlesList.setsSelection; simpl ArticlesList.handle;
    cbv beta iota; rewrite ?andb_true_l, ?andb_false_l.
  - unfold ArticlesList.clearSelection, ArticlesList.updateURL.
    now rewrite Hset.
  - unfold ArticlesList.toggleTopic, ArticlesList.updateURL.
    cbv zeta. now rewrite Hset.
  - unfold ArticlesList.clearSelection, ArticlesList.updateURL.
    now rewrite Hset.
  - now rewrite notFound_runs_same.
  - now rewrite notFound_runs_same.
  - now rewrite notFound_runs_same.
Qed.

(* ================================================================== *)
(** ** The not-found navigation *)

Lemma notFoundEffect_In (env : ArticlesList.Env) (s : ArticlesList.State) :
  In (Js.Push "/404") (ArticlesList.notFoundEffect env s)
  <-> ArticlesList.notFoundCondition env s = true.
Proof.
  unfold ArticlesList.notFoundEffect.
  destruct (ArticlesList.notFoundCondition env s); simpl; split;
    intros H; auto; try contradiction; discriminate.
Qed.

Lemma mount_condition (env : ArticlesList.Env) :
  ArticlesList.notFoundCondition env (snd (ArticlesList.mount env))
  = (0 <? List.length (ArticlesList.articles env))
    && (List.length
          (ArticlesList.filteredArticles (ArticlesList.articles env)
             (ArticlesList.paramSelection env)) =? 0).
Proof.
  unfold ArticlesList.notFoundCondition.
  destruct (mount_state env) as [-> ->]. reflexivity.
Qed.

(** C3. The not-found effect requests the navigation exactly when the
    component is initialised, the article collection is not empty and the
    filtered result is empty. The first commit, before the initial state
    is loaded, makes no router call. Mounting requests the navigation once
    when the selection read from the location excludes every article of a
    non-empty collection, and not at all otherwise; a later click requests
    it once when it sets a selection for which the condition holds, and
    not at all otherwise. *)
Theorem C3_not_found_navigation (env : ArticlesList.Env) :
  (forall s,
      In (Js.Push "/404") (ArticlesList.notFoundEffect env s)
      <-> ArticlesList.initialized s = true
          /\ ArticlesList.articles env <> []
          /\ ArticlesList.filteredArticles (ArticlesList.articles env)
               (ArticlesList.selectedTopics s) = [])
  /\ (forall prev s,
         ArticlesList.count_push "/404"
           (fst (ArticlesList.commit env prev s))
         = if ArticlesList.notFound_runs prev s
              && ArticlesList.notFoundCondition env s
           then 1 else 0)
  /\ fst (ArticlesList.commit env None ArticlesList.initial) = []
  /\ ArticlesList.count_push "/404" (fst (ArticlesList.mount env))
     = (if (0 <? List.length (ArticlesList.articles env))
           && (List.length
                 (ArticlesList.filteredArticles (ArticlesList.articles env)
                    (ArticlesList.paramSelection env)) =? 0)
        then 1 else 0)
  /\ (forall s e,
         ArticlesList.count_push "/404" (fst (ArticlesList.step env s e))
         = if ArticlesList.setsSelection e
              && ArticlesList.notFoundCondition env
                   (snd (ArticlesList.step env s e))
           then 1 else 0).
Proof.
  split.
  { intros s. now rewrite notFoundEffect_In, notFoundCondition_spec. }
  split; [intros prev s; apply commit_count_push|].
  split; [reflexivity|].
  split; [|intros s e; apply step_count_push].
  rewrite mount_calls, <- mount_condition.
  unfold ArticlesList.notFoundEffect.
  destruct (ArticlesList.notFoundCondition env (snd (ArticlesList.mount env)));
    reflexivity.
Qed.

(** The scenario of the specification: a non-empty collection and the
    selection ["Nonexistent"] give an empty result and exactly one
    navigation request; an empty collection gives none. *)
Lemma C3_scenario :
  let env := Scenario.listEnv [Scenario.aiOnly; Scenario.aiAndDatabases]
               [("topics", "Nonexistent")] in
  ArticlesList.selectedTopics (snd (ArticlesList.mount env))
    = ["Nonexistent"]
  /\ ArticlesList.filteredArticles (ArticlesList.articles env)
       ["Nonexistent"] = []
  /\ ArticlesList.count_push "/404" (fst (ArticlesList.mount env)) = 1
  /\ ArticlesList.count_push "/404"
       (fst (ArticlesList.mount
               (Scenario.listEnv [] [("topics", "Nonexistent")]))) = 0.
Proof. repeat split. Qed.

(* ================================================================== *)
(** ** Empty segments of the [topics] parameter *)

Lemma hasEveryTopic_withoutEmpty (sel : list string) (a : Article) :
  hasEveryTopic sel a
  = (negb (Js.arr_includes sel "") || Js.arr_includes (topics a) "")
    && hasEveryTopic (withoutEmpty sel) a.
Proof.
  induction sel as [|t sel IH]; [reflexivity|].
  unfold hasEveryTopic, withoutEmpty, Js.arr_includes in *.
  cbn [forallb existsb filter]. rewrite IH. unfold Js.truthy.
  rewrite (String.eqb_sym "" t).
  destruct (String.eqb_spec t "") as [->|Hne]; cbn [negb forallb].
  - destruct (existsb (String.eqb "") (topics a)),
      (existsb (String.eqb "") sel); reflexivity.
  - destruct (existsb (String.eqb t) (topics a)),
      (existsb (String.eqb "") sel),
      (existsb (String.eqb "") (topics a)); reflexivity.
Qed.

Lemma filter_filter_andb (A : Type) (f g : A -> bool) (l : list A) :
  filter f (filter g l) = filter (fun x => f x && g x) l.
Proof.
  induction l as [|a l IH]; [reflexivity|].
  simpl. destruct (g a); simpl.
  - rewrite andb_true_r. destruct (f a); now rewrite IH.
  - now rewrite andb_false_r.
Qed.

(** The result for a selection, from the result for the selection without
    its empty segments: an empty segment adds the requirement that the
    article carries the empty topic. *)
Lemma filteredArticles_withoutEmpty (arts : list Article)
    (sel : list string) :
  ArticlesList.filteredArticles arts sel
  = filter (fun a => negb (Js.arr_includes sel "")
                     || Js.arr_includes (topics a) "")
      (ArticlesList.filteredArticles arts (withoutEmpty sel)).
Proof.
  rewrite !filteredArticles_filter, filter_filter_andb.
  apply filter_ext. intros a. apply hasEveryTopic_withoutEmpty.
Qed.

(** C5, as the claim states it, fails: with the parameter [AI,] the empty
    segment excludes the article that the selection without it keeps, and
    the not-found navigation is requested. *)
Lemma C5_empty_segment_not_inert :
  let arts := [Scenario.aiOnly] in
  let sel := Js.split "," "AI," in
  sel = ["AI"; ""]
  /\ ArticlesList.filteredArticles arts sel = []
  /\ ArticlesList.filteredArticles arts (withoutEmpty sel)
     = [Scenario.aiOnly]
  /\ ArticlesList.filteredArticles arts sel
     <> ArticlesList.filteredArticles arts (withoutEmpty sel)
  /\ ArticlesList.count_push "/404"
       (fst (ArticlesList.mount (Scenario.listEnv arts [("topics", "AI,")])))
     = 1
  /\ ArticlesList.count_push "/404"
       (fst (ArticlesList.mount (Scenario.listEnv arts [("topics", "AI")])))
     = 0.
Proof. repeat split. discriminate. Qed.

(** C5 (amended). The segments of the [topics] parameter become the
    selection verbatim, and an empty segment is a required topic like any
    other: for every collection, the filtered result is the result for the
    selection without its empty segments, restricted to the articles that
    carry the empty topic when the selection has an empty segment. When,
    in addition, no article carries the empty topic, the result is empty,
    and mounting on a non-empty collection requests the not-found
    navigation. *)
Theorem C5_empty_segment_is_required
    (env : ArticlesList.Env) (sel : list string)
    (Hparam : ArticlesList.paramTopics env = Some sel) :
  ArticlesList.selectedTopics (snd (ArticlesList.mount env)) = sel
  /\ ArticlesList.filteredArticles (ArticlesList.articles env) sel
     = filter (fun a => negb (Js.arr_includes sel "")
                        || Js.arr_includes (topics a) "")
         (ArticlesList.filteredArticles (ArticlesList.articles env)
            (withoutEmpty sel))
  /\ (In "" sel ->
      ArticlesList.filteredArticles (ArticlesList.articles env) sel
      = filter (fun a => Js.arr_includes (topics a) "")
          (ArticlesList.filteredArticles (ArticlesList.articles env)
             (withoutEmpty sel)))
  /\ (In "" sel ->
      (forall a, In a (ArticlesList.articles env) -> ~ In "" (topics a)) ->
      ArticlesList.filteredArticles (ArticlesList.articles env) sel = []
      /\ ArticlesList.count_push "/404" (fst (ArticlesList.mount env))
         = (if 0 <? List.length (ArticlesList.articles env)
            then 1 else 0)).
Proof.
  assert (Hsel : ArticlesList.paramSelection env = sel)
    by (unfold ArticlesList.paramSelection; now rewrite Hparam).
  assert (Heq : In "" sel ->
                ArticlesList.filteredArticles (ArticlesList.articles env) sel
                = filter (fun a => Js.arr_includes (topics a) "")
                    (ArticlesList.filteredArticles
                       (ArticlesList.articles env) (withoutEmpty sel))).
  { intros Hseg. apply arr_includes_In in Hseg.
    rewrite filteredArticles_withoutEmpty. apply filter_ext.
    intros a. now rewrite Hseg. }
  split; [rewrite <- Hsel; apply mount_state|].
  split; [apply filteredArticles_withoutEmpty|].
  split; [exact Heq|].
  intros Hseg Hreal.
  assert (Hnil : ArticlesList.filteredArticles
                   (ArticlesList.articles env) sel = []).
  { rewrite (Heq Hseg). apply filter_none. intros a Ha.
    apply arr_includes_false, Hreal.
    rewrite filteredArticles_filter in Ha. now apply filter_In in Ha. }
  split; [exact Hnil|].
  rewrite mount_calls. unfold ArticlesList.notFoundEffect.
  rewrite mount_condition, Hsel, Hnil. simpl.
  rewrite andb_true_r.
  now destruct (0 <? List.length (ArticlesList.articles env)).
Qed.

(** Mounting on [?topics=,AI]. With an article that carries the empty
    topic the result is that article alone, although the selection without
    the empty segment keeps all three; without such an article the result
    is empty and the not-found navigation is requested. *)
Lemma C5_witness :
  let blank := Scenario.listEnv
                 [Scenario.aiOnly; Scenario.aiBlankTopic;
                  Scenario.aiAndDatabases]
                 [("topics", ",AI")] in
  let plain := Scenario.listEnv [Scenario.aiOnly; Scenario.aiAndDatabases]
                 [("topics", ",AI")] in
  ArticlesList.paramTopics blank = Some [""; "AI"]
  /\ ArticlesList.filteredArticles (ArticlesList.articles blank)
       (withoutEmpty [""; "AI"])
     = [Scenario.aiOnly; Scenario.aiBlankTopic; Scenario.aiAndDatabases]
  /\ ArticlesList.filteredArticles (ArticlesList.articles blank) [""; "AI"]
     = [Scenario.aiBlankTopic]
  /\ ArticlesList.paramTopics plain = Some [""; "AI"]
  /\ ArticlesList.filteredArticles (ArticlesList.articles plain) [""; "AI"]
     = []
  /\ ArticlesList.count_push "/404" (fst (ArticlesList.mount plain)) = 1.
Proof.
  intros blank plain.
  assert (Hseg : In "" [""; "AI"]) by (now left).
  assert (Hreal : forall a, In a (ArticlesList.articles plain)
                            -> ~ In "" (topics a)).
  { intros a [<- | [<- | []]]; simpl; intuition discriminate. }
  pose proof (C5_empty_segment_is_required blank [""; "AI"] eq_refl)
    as [_ [_ [Hblank _]]].
  pose proof (C5_empty_segment_is_required plain [""; "AI"] eq_refl)
    as [_ [_ [_ Hplain]]].
  destruct (Hplain Hseg Hreal) as [Hnil Hpush].
  split; [reflexivity|]. split; [reflexivity|].
  split; [rewrite (Hblank Hseg); reflexivity|].
  split; [reflexivity|]. split; [exact Hnil | exact Hpush].
Defined.

(* ================================================================== *)
(** ** Duplicates in the selection *)

Lemma toggle_NoDup (t : string) (sel : list string) :
  NoDup sel -> NoDup (ArticlesList.toggle t sel).
Proof.
  intros H. unfold ArticlesList.toggle.
  destruct (Js.arr_includes sel t) eqn:E.
  - now apply NoDup_filter.
  - apply arr_includes_false in E. apply NoDup_app.
    repeat split.
    + assumption.
    + constructor; [intros [] | constructor].
    + intros x Hx [<- | []]. contradiction.
Qed.

Lemma handle_NoDup (e : ArticlesList.Event) (s : ArticlesList.State) :
  NoDup (ArticlesList.selectedTopics s) ->
  NoDup (ArticlesList.selectedTopics (ArticlesList.handle e s)).
Proof.
  intros H. destruct e; simpl; try assumption; try constructor.
  now apply toggle_NoDup.
Qed.

(** C8, as the claim states it, fails: the parameter [AI,AI] initialises
    the selection with a repeated topic. *)
Lemma C8_duplicates_from_location :
  let env := Scenario.listEnv [Scenario.aiOnly] [("topics", "AI,AI")] in
  ArticlesList.reachable env (snd (ArticlesList.mount env))
  /\ ArticlesList.selectedTopics (snd (ArticlesList.mount env))
     = ["AI"; "AI"]
  /\ ~ NoDup (ArticlesList.selectedTopics (snd (ArticlesList.mount env))).
Proof.
  intros env. split; [constructor|]. split; [reflexivity|].
  intros H. change (NoDup ["AI"; "AI"]) in H.
  inversion H as [|x l Hin _]. apply Hin. now left.
Qed.

(** C8 (amended). When the segments of the [topics] parameter are pairwise
    distinct (or the parameter is absent or empty), [selectedTopics] has no
    duplicates in any state reached by toggle and clear clicks: the toggle
    and clear operations keep a duplicate-free selection duplicate-free.
    Initialisation stores the segments as they are. *)
Theorem C8_selection_has_no_duplicates
    (env : ArticlesList.Env) (s : ArticlesList.State)
    (Hparam : NoDup (ArticlesList.paramSelection env))
    (Hreach : ArticlesList.reachable env s) :
  NoDup (ArticlesList.selectedTopics s).
Proof.
  induction Hreach as [|s e Hr IH Hrend].
  - now rewrite (proj1 (mount_state env)).
  - rewrite step_state. now apply handle_NoDup.
Qed.

Lemma C8_witness :
  let env := Scenario.listEnv [Scenario.aiOnly; Scenario.aiAndDatabases]
               Scenario.sharedQuery in
  let s := snd (ArticlesList.step env
                  (snd (ArticlesList.step env (snd (ArticlesList.mount env))
                          (ArticlesList.ClickTopic "AI")))
                  (ArticlesList.ClickTopic "AI")) in
  ArticlesList.paramSelection env = ["AI"; "Databases"]
  /\ ArticlesList.selectedTopics s = ["Databases"; "AI"]
  /\ NoDup (ArticlesList.selectedTopics s).
Proof.
  intros env s. split; [reflexivity|]. split; [reflexivity|].
  apply (C8_selection_has_no_duplicates env).
  - change (NoDup ["AI"; "Databases"]).
    repeat constructor; simpl; intuition discriminate.
  - apply ArticlesList.reach_step; [|reflexivity].
    apply ArticlesList.reach_step; [|reflexivity].
    apply ArticlesList.reach_mount.
Defined.

(* ================================================================== *)
(** ** Location writes of [ArticlesList] *)

Lemma replaces_notFound (env : ArticlesList.Env) (s : ArticlesList.State)
    (b : bool) :
  filter Js.is_replace
    (if b then ArticlesList.notFoundEffect env s else []) = [].
Proof.
  unfold ArticlesList.notFoundEffect.
  destruct b, (ArticlesList.notFoundCondition env s); reflexivity.
Qed.

Lemma sync_runs_step (s : ArticlesList.State) (e : ArticlesList.Event) :
  ArticlesList.sync_runs (Some (ArticlesList.deps_of s))
    (ArticlesList.handle e s)
  = ArticlesList.setsSelection e.
Proof.
  unfold ArticlesList.sync_runs, ArticlesList.runs. simpl.
  rewrite handle_initialized, Bool.eqb_reflx, andb_true_r.
  destruct e; simpl; rewrite ?Nat.eqb_refl; try reflexivity;
    apply negb_true_iff, Nat.eqb_neq; lia.
Qed.

Lemma step_replaces (env : ArticlesList.Env) (s : ArticlesList.State)
    (e : ArticlesList.Event) :
  filter Js.is_replace (fst (ArticlesList.step env s e))
  = if ArticlesList.setsSelection e && ArticlesList.initialized s
    then [Js.Replace
            (ArticlesList.topicsUrl env
               (ArticlesList.selectedTopics (ArticlesList.handle e s)))
            true]
    else [].
Proof.
  rewrite step_calls. unfold ArticlesList.commit.
  cbn [fst]. rewrite filter_app, replaces_notFound, app_nil_r.
  rewrite sync_runs_step. unfold ArticlesList.syncEffect.
  rewrite handle_initialized.
  destruct (ArticlesList.setsSelection e), (ArticlesList.initialized s);
    reflexivity.
Qed.

(** C7, as the claim states it, fails: mounting on
    [?search=onnx&topics=AI,Databases], with no user action, the first
    commit of [HomePageContent] already replaces the location (without its
    [search] parameter), its second commit replaces it again, and
    [ArticlesList] replaces it in the commit that follows
    initialisation. *)
Lemma C7_mount_writes_location :
  let arts := [Scenario.aiOnly; Scenario.aiAndDatabases] in
  let page := Scenario.pageEnv arts Scenario.sharedQuery in
  let list := Scenario.listEnv arts Scenario.sharedQuery in
  fst (fst (HomePageContent.mountCommit page (HomePageContent.initial page)))
    = [Js.Replace {| Js.url_path := "/";
                     Js.url_query := [("topics", "AI,Databases")] |} false]
  /\ fst (HomePageContent.mount page)
     = [Js.Replace {| Js.url_path := "/";
                      Js.url_query := [("topics", "AI,Databases")] |} false;
        Js.Replace {| Js.url_path := "/";
                      Js.url_query := Scenario.sharedQuery |} false]
  /\ fst (ArticlesList.mount list)
     = [Js.Replace {| Js.url_path := "/";
                      Js.url_query := Scenario.sharedQuery |} true]
  /\ filter Js.is_replace
       (fst (HomePageContent.mount page) ++ fst (ArticlesList.mount list))
     <> [].
Proof. repeat split. discriminate. Qed.

(** C7 (amended). In [ArticlesList] the commit of the first render, which
    reads the [topics] parameter, makes no router call: the write-back
    effect is gated on [initialized]. Its first location write is the one
    [replace] of the next commit, once the flag is set, and it carries the
    selection just read; afterwards a click replaces the location exactly
    when it sets the selection. *)
Theorem C7_topics_write_back_is_gated (env : ArticlesList.Env) :
  fst (ArticlesList.commit env None ArticlesList.initial) = []
  /\ snd (ArticlesList.commit env None ArticlesList.initial)
     = Some (snd (ArticlesList.mount env))
  /\ filter Js.is_replace (fst (ArticlesList.mount env))
     = [Js.Replace
          (ArticlesList.topicsUrl env (ArticlesList.paramSelection env))
          true]
  /\ (forall s e,
         filter Js.is_replace (fst (ArticlesList.step env s e))
         = if ArticlesList.setsSelection e && ArticlesList.initialized s
           then [Js.Replace
                   (ArticlesList.topicsUrl env
                      (ArticlesList.selectedTopics
                         (ArticlesList.handle e s)))
                   true]
           else []).
Proof.
  split; [reflexivity|]. split; [reflexivity|].
  split; [|intros s e; apply step_replaces].
  rewrite mount_calls. cbn [filter Js.is_replace]. f_equal.
  apply (replaces_notFound env (snd (ArticlesList.mount env)) true).
Qed.

(** The mount scenario of the specification for [ArticlesList]. *)
Lemma C7_scenario :
  let env := Scenario.listEnv [Scenario.aiOnly; Scenario.aiAndDatabases]
               Scenario.sharedQuery in
  fst (ArticlesList.commit env None ArticlesList.initial) = []
  /\ ArticlesList.selectedTopics (snd (ArticlesList.mount env))
     = ["AI"; "Databases"].
Proof. split; reflexivity. Qed.

(* ================================================================== *)
(** ** The debounced search of [HomePageContent] *)

Section Debounce.
Variable toLowerCase : string -> string.
Variable env : HomePageContent.Env.

Lemma commit_filtered (prev : string) (s : HomePageContent.State) :
  HomePageContent.filteredArticles
    (snd (HomePageContent.commit env prev s))
  = HomePageContent.filteredArticles s.
Proof.
  unfold HomePageContent.commit.
  now destruct (String.eqb prev (HomePageContent.searchTerm s)).
Qed.

Lemma commit_searchTerm (prev : string) (s : HomePageContent.State) :
  HomePageContent.searchTerm (snd (HomePageContent.commit env prev s))
  = HomePageContent.searchTerm s.
Proof.
  unfold HomePageContent.commit.
  now destruct (String.eqb prev (HomePageContent.searchTerm s)).
Qed.

Lemma mount_filtered :
  HomePageContent.filteredArticles (snd (HomePageContent.mount env))
  = HomePageContent.articles env.
Proof.
  unfold HomePageContent.mount, HomePageContent.mountCommit. simpl.
  destruct (negb _); [|reflexivity].
  match goal with
  | |- context [HomePageContent.commit env ?p ?s] =>
      pose proof (commit_filtered p s) as H;
      destruct (HomePageContent.commit env p s)
  end. exact H.
Qed.

Lemma mount_searchTerm :
  HomePageContent.searchTerm (snd (HomePageContent.mount env))
  = HomePageContent.initialSearch env.
Proof.
  unfold HomePageContent.mount, HomePageContent.mountCommit. simpl.
  destruct (negb _); [|reflexivity].
  match goal with
  | |- context [HomePageContent.commit env ?p ?s] =>
      pose proof (commit_searchTerm p s) as H;
      destruct (HomePageContent.commit env p s)
  end. exact H.
Qed.

(** Only a firing filter task changes the collection handed to the
    article list. *)
Lemma step_filtered (s : HomePageContent.State) (e : HomePageContent.Event) :
  HomePageContent.fires s e = false ->
  HomePageContent.filteredArticles
    (snd (HomePageContent.step toLowerCase env s e))
  = HomePageContent.filteredArticles s.
Proof.
  destruct e as [v| | | |ms]; simpl; intros Hf;
    try (rewrite commit_filtered; reflexivity); try reflexivity.
  revert Hf. unfold HomePageContent.elapse.
  destruct (HomePageContent.searchTimer s) as [[term due]|]; intros Hf.
  - rewrite Hf. simpl.
    destruct (HomePageContent.visibleTimer s) as [due'|]; [|reflexivity].
    now destruct (due' <=? ms).
  - destruct (HomePageContent.visibleTimer s) as [due'|]; [|reflexivity].
    now destruct (due' <=? ms).
Qed.

(** A filter task whose delay has run out stores the search result for
    its argument. *)
Lemma elapse_fires (s : HomePageContent.State) (term : string)
    (due ms : nat) :
  HomePageContent.searchTimer s = Some (term, due) ->
  due <= ms ->
  HomePageContent.filteredArticles
    (HomePageContent.elapse toLowerCase env ms s)
  = HomePageContent.search toLowerCase (HomePageContent.articles env) term.
Proof.
  intros Ht Hle. unfold HomePageContent.elapse. rewrite Ht.
  apply Nat.leb_le in Hle. rewrite Hle. simpl.
  destruct (HomePageContent.visibleTimer s) as [due'|]; [|reflexivity].
  now destruct (due' <=? ms).
Qed.

Lemma run_cons (s : HomePageContent.State) (e : HomePageContent.Event)
    (es : list HomePageContent.Event) :
  snd (HomePageContent.run toLowerCase env s (e :: es))
  = snd (HomePageContent.run toLowerCase env
           (snd (HomePageContent.step toLowerCase env s e)) es).
Proof.
  simpl. destruct (HomePageContent.step toLowerCase env s e) as [c s'].
  simpl. now destruct (HomePageContent.run toLowerCase env s' es).
Qed.

Lemma quiet_filtered (es : list HomePageContent.Event) :
  forall s,
    HomePageContent.quiet toLowerCase env s es = true ->
    HomePageContent.filteredArticles
      (snd (HomePageContent.run toLowerCase env s es))
    = HomePageContent.filteredArticles s.
Proof.
  induction es as [|e es IH]; intros s Hq; [reflexivity|].
  simpl in Hq. apply andb_true_iff in Hq. destruct Hq as [Hf Hq].
  apply negb_true_iff in Hf.
  rewrite run_cons, (IH _ Hq). now apply step_filtered.
Qed.

End Debounce.

Lemma mount_searchTimer (env : HomePageContent.Env) :
  HomePageContent.searchTimer (snd (HomePageContent.mount env))
  = Some (HomePageContent.initialSearch env, HomePageContent.searchDelay).
Proof.
  unfold HomePageContent.mount, HomePageContent.mountCommit,
    HomePageContent.commit. simpl.
  destruct (HomePageContent.initialSearch env); reflexivity.
Qed.

(** C10. After mount the search term is the [search] parameter of the
    location, the debounced filter task is pending, and the collection
    handed to the article list is the full input collection; it stays the
    full collection through any events during which no filter task
    fires. *)
Theorem C10_full_collection_until_first_filter_task
    (toLowerCase : string -> string) (env : HomePageContent.Env)
    (es : list HomePageContent.Event)
    (Hquiet : HomePageContent.quiet toLowerCase env
                (snd (HomePageContent.mount env)) es = true) :
  HomePageContent.searchTerm (snd (HomePageContent.mount env))
    = HomePageContent.initialSearch env
  /\ HomePageContent.searchTimer (snd (HomePageContent.mount env))
     = Some (HomePageContent.initialSearch env, 300)
  /\ HomePageContent.filteredArticles (snd (HomePageContent.mount env))
     = HomePageContent.articles env
  /\ HomePageContent.filteredArticles
       (snd (HomePageContent.run toLowerCase env
               (snd (HomePageContent.mount env)) es))
     = HomePageContent.articles env.
Proof.
  split; [apply mount_searchTerm|].
  split; [apply mount_searchTimer|].
  split; [apply mount_filtered|].
  rewrite (quiet_filtered toLowerCase env es _ Hquiet).
  apply mount_filtered.
Qed.

(** Mounting on [?search=onnx&topics=AI,Databases]: the term is "onnx",
    and after 299 ms, a keystroke and another 299 ms both articles are
    still handed to the list. *)
Lemma C10_witness :
  let env := Scenario.pageEnv [Scenario.rustApis; Scenario.onnxGuide]
               Scenario.sharedQuery in
  let es := [HomePageContent.Elapse 299; HomePageContent.Change "onn";
             HomePageContent.Elapse 299; HomePageContent.Focus] in
  HomePageContent.quiet Js.toLowerCaseAscii env
    (snd (HomePageContent.mount env)) es = true
  /\ HomePageContent.searchTerm (snd (HomePageContent.mount env)) = "onnx"
  /\ HomePageContent.filteredArticles
       (snd (HomePageContent.run Js.toLowerCaseAscii env
               (snd (HomePageContent.mount env)) es))
     = [Scenario.rustApis; Scenario.onnxGuide].
Proof.
  intros env es.
  assert (Hq : HomePageContent.quiet Js.toLowerCaseAscii env
                 (snd (HomePageContent.mount env)) es = true)
    by reflexivity.
  pose proof (C10_full_collection_until_first_filter_task
                Js.toLowerCaseAscii env es Hq) as [Ht [_ [_ Hf]]].
  split; [exact Hq|]. split; [exact Ht | exact Hf].
Defined.

(* ================================================================== *)
(** ** The clear button *)

(** C6, as the claim states it, fails: after typing "rust" and letting the
    filter task fire, clicking the clear button empties the term but the
    list still receives the filtered collection. *)
Lemma C6_clear_waits_for_debounce :
  let env := Scenario.pageEnv [Scenario.rustApis; Scenario.onnxGuide] [] in
  let s := snd (HomePageContent.step Js.toLowerCaseAscii env
                  (snd (HomePageContent.step Js.toLowerCaseAscii env
                          (snd (HomePageContent.mount env))
                          (HomePageContent.Change "rust")))
                  (HomePageContent.Elapse 300)) in
  let s1 := snd (HomePageContent.step Js.toLowerCaseAscii env s
                   HomePageContent.ClickClear) in
  HomePageContent.reachable Js.toLowerCaseAscii env s
  /\ HomePageContent.rendered s HomePageContent.ClickClear = true
  /\ HomePageContent.searchTerm s1 = ""
  /\ HomePageContent.filteredArticles s1 = [Scenario.rustApis]
  /\ HomePageContent.filteredArticles s1
     <> HomePageContent.search Js.toLowerCaseAscii
          (HomePageContent.articles env) "".
Proof.
  intros env s s1. split.
  { apply HomePageContent.reach_step; [|reflexivity].
    apply HomePageContent.reach_step; [|reflexivity].
    apply HomePageContent.reach_mount. }
  repeat split. discriminate.
Qed.

(** C6 (amended). Clicking the clear button, which is rendered for a
    non-empty term, empties the search term at once, replaces the location
    without its [search] parameter and arms the 300 ms debounce for the
    empty term; the collection handed to the list is left as it was, stays
    so while less than 300 ms pass, and becomes the full collection when
    the delay has run out. The component keeps no separate debounced
    term. *)
Theorem C6_clear_goes_through_debounce
    (toLowerCase : string -> string) (env : HomePageContent.Env)
    (s : HomePageContent.State)
    (Hterm : Js.truthy (HomePageContent.searchTerm s) = true) :
  let s1 := snd (HomePageContent.step toLowerCase env s
                   HomePageContent.ClickClear) in
  HomePageContent.searchTerm s1 = ""
  /\ fst (HomePageContent.step toLowerCase env s HomePageContent.ClickClear)
     = [Js.Replace
          {| Js.url_path := Js.pathname (HomePageContent.location env);
             Js.url_query :=
               Js.delete "search" (Js.search (HomePageContent.location env))
          |} false]
  /\ HomePageContent.searchTimer s1 = Some ("", 300)
  /\ HomePageContent.filteredArticles s1
     = HomePageContent.filteredArticles s
  /\ (forall ms, ms < 300 ->
        HomePageContent.filteredArticles
          (snd (HomePageContent.step toLowerCase env s1
                  (HomePageContent.Elapse ms)))
        = HomePageContent.filteredArticles s)
  /\ (forall ms, 300 <= ms ->
        HomePageContent.filteredArticles
          (snd (HomePageContent.step toLowerCase env s1
                  (HomePageContent.Elapse ms)))
        = HomePageContent.articles env).
Proof.
  intros s1.
  assert (Hs1 : HomePageContent.step toLowerCase env s
                  HomePageContent.ClickClear
                = HomePageContent.termEffects env
                    (HomePageContent.setSearchTerm "" s)).
  { unfold HomePageContent.step, HomePageContent.commit.
    unfold Js.truthy in Hterm. apply negb_true_iff in Hterm.
    cbn [HomePageContent.searchTerm HomePageContent.setSearchTerm].
    now rewrite Hterm. }
  subst s1. rewrite Hs1.
  split; [reflexivity|]. split; [reflexivity|].
  split; [reflexivity|]. split; [reflexivity|].
  split; intros ms Hms.
  - rewrite step_filtered; [reflexivity|].
    change ((300 <=? ms) = false). apply Nat.leb_gt. exact Hms.
  - change (HomePageContent.filteredArticles
              (HomePageContent.elapse toLowerCase env ms
                 (snd (HomePageContent.termEffects env
                         (HomePageContent.setSearchTerm "" s))))
            = HomePageContent.search toLowerCase
                (HomePageContent.articles env) "").
    now apply elapse_fires with (due := 300).
Qed.

Lemma C6_witness :
  let env := Scenario.pageEnv [Scenario.rustApis; Scenario.onnxGuide] [] in
  let s := snd (HomePageContent.step Js.toLowerCaseAscii env
                  (snd (HomePageContent.step Js.toLowerCaseAscii env
                          (snd (HomePageContent.mount env))
                          (HomePageContent.Change "rust")))
                  (HomePageContent.Elapse 300)) in
  let s1 := snd (HomePageContent.step Js.toLowerCaseAscii env s
                   HomePageContent.ClickClear) in
  Js.truthy (HomePageContent.searchTerm s) = true
  /\ HomePageContent.filteredArticles s1 = [Scenario.rustApis]
  /\ HomePageContent.filteredArticles
       (snd (HomePageContent.step Js.toLowerCaseAscii env s1
               (HomePageContent.Elapse 300)))
     = [Scenario.rustApis; Scenario.onnxGuide].
Proof.
  intros env s s1.
  pose proof (C6_clear_goes_through_debounce Js.toLowerCaseAscii env s
                eq_refl) as [_ [_ [_ [Hsame [_ Hfull]]]]].
  split; [reflexivity|]. split; [exact Hsame|].
  exact (Hfull 300 (le_n 300)).
Defined.

(* ================================================================== *)
(** ** The topic universe *)

Lemma set_of_In (xs : list string) :
  forall seen x,
    In x (Js.set_of seen xs) <-> In x xs /\ ~ In x seen.
Proof.
  induction xs as [|y xs IH]; intros seen x; simpl; [tauto|].
  destruct (Js.arr_includes seen y) eqn:E.
  - apply arr_includes_In in E. rewrite IH.
    split; [tauto|]. intros [[<- | H] Hn]; tauto.
  - apply arr_includes_false in E. simpl. rewrite IH. simpl.
    destruct (string_dec y x) as [<-|Hne]; tauto.
Qed.

Lemma set_of_NoDup (xs : list string) :
  forall seen, NoDup (Js.set_of seen xs).
Proof.
  induction xs as [|y xs IH]; intros seen; simpl; [constructor|].
  destruct (Js.arr_includes seen y); [apply IH|].
  constructor; [|apply IH].
  rewrite set_of_In. simpl. tauto.
Qed.

Lemma insert_sorted_In (y : string) (l : list string) (x : string) :
  In x (Js.insert_sorted y l) <-> x = y \/ In x l.
Proof.
  induction l as [|z l IH]; simpl; [intuition|].
  destruct (String.leb y z); simpl; [intuition|].
  rewrite IH. intuition.
Qed.

Lemma sort_In (l : list string) (x : string) :
  In x (Js.sort l) <-> In x l.
Proof.
  unfold Js.sort. induction l as [|y l IH]; simpl; [tauto|].
  rewrite insert_sorted_In, IH. intuition.
Qed.

Lemma insert_sorted_NoDup (y : string) (l : list string) :
  NoDup l -> ~ In y l -> NoDup (Js.insert_sorted y l).
Proof.
  induction l as [|z l IH]; intros Hnd Hn; simpl.
  - constructor; [tauto | constructor].
  - destruct (String.leb y z); [now constructor|].
    inversion Hnd as [|? ? Hz Hl]; subst.
    constructor.
    + rewrite insert_sorted_In. simpl in Hn. intuition.
    + apply IH; [assumption|]. simpl in Hn. tauto.
Qed.

Lemma sort_NoDup (l : list string) : NoDup l -> NoDup (Js.sort l).
Proof.
  unfold Js.sort. induction 1 as [|y l Hy Hl IH]; simpl; [constructor|].
  apply insert_sorted_NoDup; [assumption|].
  fold (Js.sort l). now rewrite sort_In.
Qed.

Lemma insert_sorted_Sorted (y : string) (l : list string) :
  Sorted (fun a b => String.leb a b = true) l ->
  Sorted (fun a b => String.leb a b = true) (Js.insert_sorted y l).
Proof.
  induction l as [|z l IH]; intros Hs; simpl.
  - repeat constructor.
  - destruct (String.leb y z) eqn:E.
    + constructor; [assumption | now constructor].
    + inversion Hs as [|? ? Hl Hhd]; subst.
      constructor; [now apply IH|].
      assert (Hzy : String.leb z y = true).
      { destruct (String.leb_total y z) as [H|H]; congruence. }
      destruct l as [|w l]; simpl.
      * now constructor.
      * destruct (String.leb y w); constructor; [assumption|].
        now inversion Hhd.
Qed.

Lemma sort_Sorted (l : list string) :
  Sorted (fun a b => String.leb a b = true) (Js.sort l).
Proof.
  unfold Js.sort. induction l as [|y l IH]; simpl; [constructor|].
  now apply insert_sorted_Sorted.
Qed.

(** X1. A topic is in [allTopics] exactly when some article of the
    collection carries it; in particular an empty collection, or one whose
    articles carry no topics, has an empty topic universe. *)
Theorem X1_allTopics_membership (arts : list Article) (t : string) :
  (In t (ArticlesList.allTopics arts)
   <-> exists a, In a arts /\ In t (topics a))
  /\ ArticlesList.allTopics [] = []
  /\ ((forall a, In a arts -> topics a = [])
      -> ArticlesList.allTopics arts = []).
Proof.
  assert (Hin : forall u, In u (ArticlesList.allTopics arts)
                          <-> exists a, In a arts /\ In u (topics a)).
  { intros u. unfold ArticlesList.allTopics.
    rewrite sort_In, set_of_In, in_flat_map. simpl. tauto. }
  split; [apply Hin|]. split; [reflexivity|].
  intros Hnone.
  assert (Hno : forall u, ~ In u (ArticlesList.allTopics arts)).
  { intros u Hu. apply Hin in Hu. destruct Hu as [a [Ha Hu]].
    rewrite (Hnone a Ha) in Hu. contradiction. }
  destruct (ArticlesList.allTopics arts) as [|u l]; [reflexivity|].
  exfalso. apply (Hno u). now left.
Qed.

Lemma X1_witness :
  (forall a, In a [{| slug := "draft"; title := "Draft";
                      description := None; topics := [] |}]
             -> topics a = [])
  /\ ArticlesList.allTopics
       [{| slug := "draft"; title := "Draft";
           description := None; topics := [] |}] = [].
Proof.
  assert (H : forall a, In a [{| slug := "draft"; title := "Draft";
                                 description := None; topics := [] |}]
                        -> topics a = []).
  { intros a [<- | []]. reflexivity. }
  split; [exact H|].
  exact (proj2 (proj2 (X1_allTopics_membership _ "AI")) H).
Defined.

Lemma allTopics_NoDup (arts : list Article) :
  NoDup (ArticlesList.allTopics arts).
Proof. unfold ArticlesList.allTopics. apply sort_NoDup, set_of_NoDup. Qed.

(** X2. [allTopics] lists each topic once, in ascending code unit order:
    every entry is below or equal to the next one, and no entry repeats
    even when several articles share a topic. *)
Theorem X2_allTopics_sorted_distinct (arts : list Article) :
  NoDup (ArticlesList.allTopics arts)
  /\ Sorted (fun a b => String.leb a b = true) (ArticlesList.allTopics arts).
Proof.
  split; [apply allTopics_NoDup|].
  unfold ArticlesList.allTopics. apply sort_Sorted.
Qed.

(* ================================================================== *)
(** ** Algebra of the topic filter *)

Lemma hasEveryTopic_app (s1 s2 : list string) (a : Article) :
  hasEveryTopic (s1 ++ s2) a = hasEveryTopic s1 a && hasEveryTopic s2 a.
Proof. unfold hasEveryTopic. apply forallb_app. Qed.

Lemma hasEveryTopic_same_members (s1 s2 : list string) (a : Article) :
  (forall t, In t s1 <-> In t s2) ->
  hasEveryTopic s1 a = hasEveryTopic s2 a.
Proof.
  intros H. apply eq_true_iff_eq. rewrite !hasEveryTopic_spec.
  unfold spec_hasEveryTopic. split; intros Ha t Ht; apply Ha, H, Ht.
Qed.

(** X3. Selecting the topics of [s1] and then those of [s2] narrows the
    result of [s1] by [s2]: filtering by the concatenated selection is
    filtering the already filtered collection; an article is kept exactly
    when both filters keep it; and filtering a result again by the same
    selection changes nothing. *)
Theorem X3_topic_filter_composes (arts : list Article)
    (s1 s2 : list string) :
  ArticlesList.filteredArticles arts (s1 ++ s2)
    = ArticlesList.filteredArticles
        (ArticlesList.filteredArticles arts s1) s2
  /\ (forall a,
         In a (ArticlesList.filteredArticles arts (s1 ++ s2))
         <-> In a (ArticlesList.filteredArticles arts s1)
             /\ In a (ArticlesList.filteredArticles arts s2))
  /\ ArticlesList.filteredArticles
       (ArticlesList.filteredArticles arts s1) s1
     = ArticlesList.filteredArticles arts s1.
Proof.
  assert (Hcomp : ArticlesList.filteredArticles arts (s1 ++ s2)
                  = ArticlesList.filteredArticles
                      (ArticlesList.filteredArticles arts s1) s2).
  { rewrite !filteredArticles_filter, filter_filter_andb.
    apply filter_ext. intros a.
    rewrite hasEveryTopic_app. apply andb_comm. }
  split; [exact Hcomp|]. split.
  - intros a. rewrite !filteredArticles_filter, !filter_In,
      hasEveryTopic_app, andb_true_iff. tauto.
  - rewrite !filteredArticles_filter, filter_filter_andb.
    apply filter_ext. intros a. apply andb_diag.
Qed.

(** X4. The result of the topic filter depends only on which topics are
    selected, not on the order in which they were clicked nor on
    repetitions in the selection. *)
Theorem X4_topic_filter_ignores_order (arts : list Article)
    (s1 s2 : list string)
    (Hsame : forall t, In t s1 <-> In t s2) :
  ArticlesList.filteredArticles arts s1
  = ArticlesList.filteredArticles arts s2.
Proof.
  rewrite !filteredArticles_filter. apply filter_ext.
  intros a. now apply hasEveryTopic_same_members.
Qed.

Lemma X4_witness :
  (forall t, In t ["AI"; "Databases"] <-> In t ["Databases"; "AI"; "AI"])
  /\ ArticlesList.filteredArticles
       [Scenario.aiOnly; Scenario.aiAndDatabases] ["AI"; "Databases"]
     = ArticlesList.filteredArticles
         [Scenario.aiOnly; Scenario.aiAndDatabases]
         ["Databases"; "AI"; "AI"].
Proof.
  assert (H : forall t, In t ["AI"; "Databases"]
                        <-> In t ["Databases"; "AI"; "AI"])
    by (intros t; simpl; tauto).
  split; [exact H|].
  exact (X4_topic_filter_ignores_order
           [Scenario.aiOnly; Scenario.aiAndDatabases] _ _ H).
Defined.

(* ================================================================== *)
(** ** Toggling and paging *)

(** X5. After [toggleTopic t], the topic [t] is selected exactly when it
    was not selected before, every occurrence of a previously selected [t]
    is gone, and the membership of every other topic is unchanged. *)
Theorem X5_toggle_flips_membership (t : string) (s : ArticlesList.State) :
  (In t (ArticlesList.selectedTopics (ArticlesList.toggleTopic t s))
   <-> ~ In t (ArticlesList.selectedTopics s))
  /\ (forall x, x <> t ->
        (In x (ArticlesList.selectedTopics (ArticlesList.toggleTopic t s))
         <-> In x (ArticlesList.selectedTopics s))).
Proof.
  rewrite selected_toggleTopic.
  destruct (in_dec string_dec t (ArticlesList.selectedTopics s)) as [Hin|Hn].
  - rewrite (toggle_present _ _ Hin). split.
    + rewrite In_remove. tauto.
    + intros x Hx. rewrite In_remove. tauto.
  - rewrite (toggle_absent _ _ Hn). split.
    + rewrite in_app_iff. simpl. tauto.
    + intros x Hx. rewrite in_app_iff. simpl. intuition congruence.
Qed.

Lemma X5_witness :
  "Databases" <> "AI"
  /\ (In "Databases"
        (ArticlesList.selectedTopics
           (ArticlesList.toggleTopic "AI"
              (Scenario.selection ["AI"; "Databases"; "AI"])))
      <-> In "Databases"
            (ArticlesList.selectedTopics
               (Scenario.selection ["AI"; "Databases"; "AI"]))).
Proof.
  assert (H : "Databases" <> "AI") by discriminate.
  split; [exact H|].
  exact (proj2 (X5_toggle_flips_membership "AI"
                  (Scenario.selection ["AI"; "Databases"; "AI"]))
           "Databases" H).
Defined.

Lemma firstn_hides (A : Type) (n : nat) (l : list A) :
  (n <? List.length l) = true <-> firstn n l <> l.
Proof.
  rewrite Nat.ltb_lt. split.
  - intros Hlt Heq. apply (f_equal (@List.length A)) in Heq.
    rewrite length_firstn in Heq. lia.
  - intros Hne. destruct (Nat.lt_ge_cases n (List.length l)) as [H|H];
      [assumption|]. exfalso. apply Hne. now apply firstn_all2.
Qed.

(** X6. Paging. The displayed articles are the first
    [min visibleCount total] filtered articles; the "Load More" button is
    rendered exactly when some filtered article is not displayed, and the
    "More Topics" button exactly when some topic of the universe is not
    revealed. *)
Theorem X6_paging_controls (arts : list Article) (s : ArticlesList.State) :
  List.length (ArticlesList.displayedArticles arts s)
    = Nat.min (ArticlesList.visibleCount s)
        (List.length
           (ArticlesList.filteredArticles arts
              (ArticlesList.selectedTopics s)))
  /\ (exists hidden,
         ArticlesList.filteredArticles arts (ArticlesList.selectedTopics s)
         = ArticlesList.displayedArticles arts s ++ hidden)
  /\ (ArticlesList.rendered arts s ArticlesList.ClickLoadMore = true
      <-> ArticlesList.displayedArticles arts s
          <> ArticlesList.filteredArticles arts
               (ArticlesList.selectedTopics s))
  /\ (ArticlesList.rendered arts s ArticlesList.ClickMoreTopics = true
      <-> ArticlesList.displayedTopics arts s
          <> ArticlesList.allTopics arts).
Proof.
  unfold ArticlesList.displayedArticles, ArticlesList.displayedTopics.
  split; [apply length_firstn|]. split.
  - eexists. symmetry. apply firstn_skipn.
  - split; apply firstn_hides.
Qed.

Lemma firstn_NoDup (n : nat) (l : list string) :
  NoDup l -> NoDup (firstn n l).
Proof.
  intros H. rewrite <- (firstn_skipn n l) in H.
  now apply NoDup_app_remove_r in H.
Qed.

(** X7. When the selection has no repeated topic, [topicsToShow] has none
    either, so the rendered toggle buttons have pairwise distinct keys;
    and it holds exactly the revealed topics and the selected ones. *)
Theorem X7_topicsToShow_distinct (arts : list Article)
    (s : ArticlesList.State)
    (Hsel : NoDup (ArticlesList.selectedTopics s)) :
  NoDup (ArticlesList.topicsToShow arts s)
  /\ (forall t, In t (ArticlesList.topicsToShow arts s)
                <-> In t (ArticlesList.displayedTopics arts s)
                    \/ In t (ArticlesList.selectedTopics s)).
Proof.
  unfold ArticlesList.topicsToShow, ArticlesList.extraTopics. split.
  - apply NoDup_app. repeat split.
    + unfold ArticlesList.displayedTopics.
      apply firstn_NoDup, allTopics_NoDup.
    + now apply NoDup_filter.
    + intros t Ht Hf. apply filter_In in Hf. destruct Hf as [_ Hf].
      apply negb_true_iff, arr_includes_false in Hf. contradiction.
  - intros t. rewrite in_app_iff, filter_In, negb_true_iff,
      arr_includes_false.
    destruct (in_dec string_dec t (ArticlesList.displayedTopics arts s));
      tauto.
Qed.

Lemma X7_witness :
  let s := ArticlesList.setVisibleTopicsCount (fun _ => 1)
             (Scenario.selection ["Databases"; "Rust"]) in
  let arts := [Scenario.aiOnly; Scenario.aiAndDatabases] in
  NoDup (ArticlesList.selectedTopics s)
  /\ ArticlesList.topicsToShow arts s = ["AI"; "Databases"; "Rust"]
  /\ NoDup (ArticlesList.topicsToShow arts s).
Proof.
  intros s arts.
  assert (H : NoDup (ArticlesList.selectedTopics s)).
  { change (NoDup ["Databases"; "Rust"]).
    repeat constructor; simpl; intuition discriminate. }
  split; [exact H|]. split; [reflexivity|].
  exact (proj1 (X7_topicsToShow_distinct arts s H)).
Defined.

(** X8. Clicks that do not set the selection ("More Topics", "Load More",
    the description toggle) make no router call and leave the selection,
    hence the filtered result, as it was; clicks that set the selection
    restart the article paging at ten. *)
Theorem X8_paging_clicks_are_local (env : ArticlesList.Env)
    (s : ArticlesList.State) (e : ArticlesList.Event) :
  if ArticlesList.setsSelection e
  then ArticlesList.visibleCount (snd (ArticlesList.step env s e)) = 10
       /\ ArticlesList.displayedArticles (ArticlesList.articles env)
            (snd (ArticlesList.step env s e))
          = firstn 10
              (ArticlesList.filteredArticles (ArticlesList.articles env)
                 (ArticlesList.selectedTopics
                    (snd (ArticlesList.step env s e))))
  else fst (ArticlesList.step env s e) = []
       /\ ArticlesList.selectedTopics (snd (ArticlesList.step env s e))
          = ArticlesList.selectedTopics s
       /\ ArticlesList.initialized (snd (ArticlesList.step env s e))
          = ArticlesList.initialized s.
Proof.
  rewrite step_calls, step_state.
  destruct e; simpl ArticlesList.setsSelection; cbv iota;
    try (split; reflexivity).
  - split; [|split; reflexivity].
    unfold ArticlesList.commit. cbn [fst].
    rewrite sync_runs_step, notFound_runs_same by reflexivity.
    reflexivity.
  - split; [|split; reflexivity].
    unfold ArticlesList.commit. cbn [fst].
    rewrite sync_runs_step, notFound_runs_same by reflexivity.
    reflexivity.
  - split; [|split; reflexivity].
    unfold ArticlesList.commit. cbn [fst].
    rewrite sync_runs_step, notFound_runs_same by reflexivity.
    reflexivity.
Qed.

(* ================================================================== *)
(** ** The query written back to the location *)

Lemma get_delete_same (k : string) (p : Js.URLSearchParams) :
  Js.get k (Js.delete k p) = None.
Proof.
  induction p as [|[k' v'] p IH]; [reflexivity|].
  unfold Js.delete in *. cbn [filter fst].
  destruct (String.eqb k' k) eqn:E; cbn [negb]; [exact IH|].
  cbn [Js.get]. now rewrite E.
Qed.

Lemma get_delete_other (k k0 : string) (p : Js.URLSearchParams) :
  k0 <> k -> Js.get k0 (Js.delete k p) = Js.get k0 p.
Proof.
  intros Hne. induction p as [|[k' v'] p IH]; [reflexivity|].
  unfold Js.delete in *. cbn [filter fst].
  destruct (String.eqb_spec k' k) as [->|Hk]; cbn [negb Js.get].
  - apply String.eqb_neq in Hne. rewrite String.eqb_sym in Hne.
    now rewrite Hne.
  - now rewrite IH.
Qed.

Lemma get_set_same (k v : string) (p : Js.URLSearchParams) :
  Js.get k (Js.set k v p) = Some v.
Proof.
  induction p as [|[k' v'] p IH]; cbn [Js.set Js.get].
  - now rewrite String.eqb_refl.
  - destruct (String.eqb k' k) eqn:E; cbn [Js.get].
    + now rewrite String.eqb_refl.
    + now rewrite E.
Qed.

Lemma get_set_other (k v k0 : string) (p : Js.URLSearchParams) :
  k0 <> k -> Js.get k0 (Js.set k v p) = Js.get k0 p.
Proof.
  intros Hne. assert (Hkk : String.eqb k k0 = false)
    by (apply String.eqb_neq; congruence).
  induction p as [|[k' v'] p IH]; cbn [Js.set Js.get].
  - now rewrite Hkk.
  - destruct (String.eqb_spec k' k) as [->|Hk]; cbn [Js.get].
    + rewrite Hkk. now apply get_delete_other.
    + now rewrite IH.
Qed.

(** X9. The URL that [ArticlesList] writes back keeps the path, carries
    the selection joined with commas under [topics] (or no [topics]
    parameter when nothing is selected) and leaves every other query
    parameter, such as [search], with the value it had. *)
Theorem X9_topics_url (env : ArticlesList.Env) (sel : list string) :
  Js.url_path (ArticlesList.topicsUrl env sel)
    = Js.pathname (ArticlesList.location env)
  /\ Js.get "topics" (Js.url_query (ArticlesList.topicsUrl env sel))
     = (if 0 <? List.length sel then Some (Js.join "," sel) else None)
  /\ (forall k, k <> "topics" ->
        Js.get k (Js.url_query (ArticlesList.topicsUrl env sel))
        = Js.get k (Js.search (ArticlesList.location env))).
Proof.
  unfold ArticlesList.topicsUrl. cbn [Js.url_path Js.url_query].
  split; [reflexivity|].
  destruct (0 <? List.length sel); split.
  - apply get_set_same.
  - intros k Hk. now apply get_set_other.
  - apply get_delete_same.
  - intros k Hk. now apply get_delete_other.
Qed.

Lemma X9_witness :
  "search" <> "topics"
  /\ Js.get "search"
       (Js.url_query
          (ArticlesList.topicsUrl
             (Scenario.listEnv [Scenario.aiOnly] Scenario.sharedQuery)
             ["Rust"]))
     = Some "onnx".
Proof.
  assert (H : "search" <> "topics") by discriminate.
  split; [exact H|].
  exact (proj2 (proj2 (X9_topics_url
                         (Scenario.listEnv [Scenario.aiOnly]
                            Scenario.sharedQuery) ["Rust"]))
           "search" H).
Defined.

(** X10. The URL that [HomePageContent] writes back keeps the path,
    carries the term under [search] (or no [search] parameter for the
    empty term) and leaves every other query parameter, such as [topics],
    untouched. *)
Theorem X10_search_url (env : HomePageContent.Env) (term : string) :
  Js.url_path (HomePageContent.searchUrl env term)
    = Js.pathname (HomePageContent.location env)
  /\ Js.get "search" (Js.url_query (HomePageContent.searchUrl env term))
     = (if Js.truthy term then Some term else None)
  /\ (forall k, k <> "search" ->
        Js.get k (Js.url_query (HomePageContent.searchUrl env term))
        = Js.get k (Js.search (HomePageContent.location env))).
Proof.
  unfold HomePageContent.searchUrl. cbn [Js.url_path Js.url_query].
  split; [reflexivity|].
  destruct (Js.truthy term); split.
  - apply get_set_same.
  - intros k Hk. now apply get_set_other.
  - apply get_delete_same.
  - intros k Hk. now apply get_delete_other.
Qed.

Lemma X10_witness :
  "topics" <> "search"
  /\ Js.get "topics"
       (Js.url_query
          (HomePageContent.searchUrl
             (Scenario.pageEnv [Scenario.aiOnly] Scenario.sharedQuery) ""))
     = Some "AI,Databases".
Proof.
  assert (H : "topics" <> "search") by discriminate.
  split; [exact H|].
  exact (proj2 (proj2 (X10_search_url
                         (Scenario.pageEnv [Scenario.aiOnly]
                            Scenario.sharedQuery) ""))
           "topics" H).
Defined.

(* ================================================================== *)
(** ** Reading the selection back from the location *)

Lemma no_sep_cons (c a : ascii) (x : string) :
  Js.includes (String a x) (String c "") = false ->
  a <> c /\ Js.includes x (String c "") = false.
Proof.
  change (Js.includes (String a x) (String c ""))
    with (String.prefix (String c "") (String a x)
          || Js.includes x (String c "")).
  intros H. apply orb_false_iff in H. destruct H as [Hp Hi].
  split; [|exact Hi]. intros ->. revert Hp. simpl.
  destruct (ascii_dec c c); [destruct x; discriminate | congruence].
Qed.

Lemma split_no_sep (c : ascii) (x : string) :
  Js.includes x (String c "") = false -> Js.split c x = [x].
Proof.
  induction x as [|a x IH]; intros H; [reflexivity|].
  apply no_sep_cons in H. destruct H as [Hne H].
  cbn [Js.split]. apply Ascii.eqb_neq in Hne. rewrite Hne.
  now rewrite (IH H).
Qed.

Lemma split_append (c : ascii) (x r : string) :
  Js.includes x (String c "") = false ->
  Js.split c (x ++ String c r)%string = x :: Js.split c r.
Proof.
  induction x as [|a x IH]; intros H.
  - cbn [String.append Js.split]. now rewrite Ascii.eqb_refl.
  - apply no_sep_cons in H. destruct H as [Hne H].
    cbn [String.append Js.split]. apply Ascii.eqb_neq in Hne.
    rewrite Hne. now rewrite (IH H).
Qed.

Lemma split_join (c : ascii) (xs : list string) :
  xs <> [] ->
  (forall x, In x xs -> Js.includes x (String c "") = false) ->
  Js.split c (Js.join (String c "") xs) = xs.
Proof.
  unfold Js.join. induction xs as [|x xs IH]; intros Hne Hsep;
    [congruence|].
  destruct xs as [|y xs].
  - apply split_no_sep, Hsep. now left.
  - change (String.concat (String c "") (x :: y :: xs))
      with (x ++ String c (String.concat (String c "") (y :: xs)))%string.
    rewrite split_append by (apply Hsep; now left).
    f_equal. apply IH; [discriminate|].
    intros z Hz. apply Hsep. now right.
Qed.

(** X11. A selection written to the location is read back unchanged by a
    later mount: when no selected topic contains a comma and the joined
    string is not empty, mounting on the query that [topicsUrl] wrote for a
    non-empty selection restores exactly that selection, in order. *)
Theorem X11_selection_survives_reload
    (written env : ArticlesList.Env) (sel : list string)
    (Hsel : sel <> [])
    (Hcomma : forall t, In t sel -> Js.includes t "," = false)
    (Hjoin : Js.join "," sel <> "")
    (Hloc : ArticlesList.searchParams env
            = Js.url_query (ArticlesList.topicsUrl written sel)) :
  Js.split "," (Js.join "," sel) = sel
  /\ ArticlesList.selectedTopics (snd (ArticlesList.mount env)) = sel.
Proof.
  assert (Hrt : Js.split "," (Js.join "," sel) = sel)
    by now apply split_join.
  split; [exact Hrt|].
  rewrite (proj1 (mount_state env)).
  unfold ArticlesList.paramSelection, ArticlesList.paramTopics.
  rewrite Hloc. unfold ArticlesList.topicsUrl. cbn [Js.url_query].
  destruct sel as [|t sel]; [congruence|]. cbn [List.length Nat.ltb Nat.leb].
  rewrite get_set_same. unfold Js.truthy.
  apply String.eqb_neq in Hjoin. rewrite Hjoin. exact Hrt.
Qed.

Lemma X11_witness :
  let written := Scenario.listEnv [Scenario.aiOnly] [("search", "onnx")] in
  let env := Scenario.listEnv [Scenario.aiOnly; Scenario.aiAndDatabases]
               [("search", "onnx"); ("topics", "Databases,AI")] in
  ArticlesList.searchParams env
    = Js.url_query (ArticlesList.topicsUrl written ["Databases"; "AI"])
  /\ ArticlesList.selectedTopics (snd (ArticlesList.mount env))
     = ["Databases"; "AI"].
Proof.
  intros written env.
  assert (Hloc : ArticlesList.searchParams env
                 = Js.url_query
                     (ArticlesList.topicsUrl written ["Databases"; "AI"]))
    by reflexivity.
  assert (Hcomma : forall t, In t ["Databases"; "AI"]
                             -> Js.includes t "," = false).
  { intros t [<- | [<- | []]]; reflexivity. }
  split; [exact Hloc|].
  refine (proj2 (X11_selection_survives_reload written env
                   ["Databases"; "AI"] _ Hcomma _ Hloc)); discriminate.
Defined.

(** X12. The location write that follows initialisation puts back what was
    read: for a present, non-empty [topics] parameter the replaced URL
    carries that parameter string verbatim, segments and commas included;
    for an absent or empty parameter it carries no [topics] parameter. *)
Theorem X12_mount_writes_back_what_it_read (env : ArticlesList.Env) :
  filter Js.is_replace (fst (ArticlesList.mount env))
  = [Js.Replace
       {| Js.url_path := Js.pathname (ArticlesList.location env);
          Js.url_query :=
            match Js.get "topics" (ArticlesList.searchParams env) with
            | Some param =>
                if Js.truthy param
                then Js.set "topics" param
                       (Js.search (ArticlesList.location env))
                else Js.delete "topics"
                       (Js.search (ArticlesList.location env))
            | None => Js.delete "topics"
                        (Js.search (ArticlesList.location env))
            end |}
       true].
Proof.
  rewrite mount_calls. cbn [filter Js.is_replace].
  rewrite (replaces_notFound env (snd (ArticlesList.mount env)) true).
  unfold ArticlesList.topicsUrl, ArticlesList.paramSelection,
    ArticlesList.paramTopics.
  destruct (Js.get "topics" (ArticlesList.searchParams env)) as [param|];
    [|reflexivity].
  destruct (Js.truthy param); [|reflexivity].
  pose proof (split_nonempty "," param) as Hne.
  pose proof (join_split "," param) as Hjs.
  destruct (Js.split "," param) as [|seg rest]; [congruence|].
  cbn [List.length Nat.ltb Nat.leb]. now rewrite Hjs.
Qed.

(* ================================================================== *)
(** ** Clearing the selection *)

Lemma clear_condition (env : ArticlesList.Env) (s : ArticlesList.State) :
  ArticlesList.notFoundCondition env (ArticlesList.clearSelection s) = false.
Proof.
  unfold ArticlesList.notFoundCondition, ArticlesList.clearSelection,
    ArticlesList.updateURL. simpl.
  destruct (ArticlesList.articles env); simpl;
    now rewrite ?andb_false_r.
Qed.

Lemma clear_calls (env : ArticlesList.Env) (s : ArticlesList.State) :
  ArticlesList.initialized s = true ->
  fst (ArticlesList.commit env (Some (ArticlesList.deps_of s))
         (ArticlesList.clearSelection s))
  = [Js.Replace (ArticlesList.topicsUrl env []) true].
Proof.
  intros Hi. unfold ArticlesList.commit. cbn [fst].
  change (ArticlesList.clearSelection s)
    with (ArticlesList.handle ArticlesList.ClickClearSelection s) at 1.
  rewrite sync_runs_step. cbn [ArticlesList.setsSelection].
  unfold ArticlesList.syncEffect, ArticlesList.notFoundEffect.
  rewrite clear_condition.
  change (ArticlesList.initialized (ArticlesList.clearSelection s))
    with (ArticlesList.initialized s).
  rewrite Hi.
  now destruct (ArticlesList.notFound_runs _ _).
Qed.

(** X13. In an initialised component, "All Topics" and "Clear Selection"
    empty the selection, so the list shows the whole collection again; the
    click replaces the location by the URL without a [topics] parameter
    and never requests the not-found navigation, whatever the collection
    is. *)
Theorem X13_clear_selection (env : ArticlesList.Env)
    (s : ArticlesList.State) (e : ArticlesList.Event)
    (Hinit : ArticlesList.initialized s = true)
    (He : e = ArticlesList.ClickAllTopics
          \/ e = ArticlesList.ClickClearSelection) :
  ArticlesList.selectedTopics (snd (ArticlesList.step env s e)) = []
  /\ ArticlesList.filteredArticles (ArticlesList.articles env)
       (ArticlesList.selectedTopics (snd (ArticlesList.step env s e)))
     = ArticlesList.articles env
  /\ fst (ArticlesList.step env s e)
     = [Js.Replace (ArticlesList.topicsUrl env []) true]
  /\ Js.get "topics"
       (Js.url_query (ArticlesList.topicsUrl env [])) = None.
Proof.
  rewrite step_calls, step_state.
  assert (Hh : ArticlesList.handle e s = ArticlesList.clearSelection s)
    by (destruct He as [-> | ->]; reflexivity).
  rewrite Hh. split; [reflexivity|]. split; [reflexivity|].
  split; [now apply clear_calls|].
  unfold ArticlesList.topicsUrl. cbn [Js.url_query List.length Nat.ltb Nat.leb].
  apply get_delete_same.
Qed.

Lemma X13_witness :
  let env := Scenario.listEnv [Scenario.aiOnly; Scenario.aiAndDatabases]
               [("topics", "AI,Databases")] in
  ArticlesList.initialized (snd (ArticlesList.mount env)) = true
  /\ fst (ArticlesList.step env (snd (ArticlesList.mount env))
            ArticlesList.ClickClearSelection)
     = [Js.Replace {| Js.url_path := "/"; Js.url_query := [] |} true].
Proof.
  intros env.
  assert (Hi : ArticlesList.initialized (snd (ArticlesList.mount env))
               = true) by reflexivity.
  split; [exact Hi|].
  exact (proj1 (proj2 (proj2
           (X13_clear_selection env (snd (ArticlesList.mount env))
              ArticlesList.ClickClearSelection Hi
              (or_intror eq_refl))))).
Defined.

(* ================================================================== *)
(** ** The two filters of the page together *)





(* ================================================================== *)
(** ** The debounce as a whole *)

Section DebounceRuns.
Variable toLowerCase : string -> string.
Variable env : HomePageContent.Env.

(** What [ms] elapsed milliseconds do to the search side of the state. *)
Lemma elapse_search (ms : nat) (s : HomePageContent.State) :
  HomePageContent.searchTerm (HomePageContent.elapse toLowerCase env ms s)
    = HomePageContent.searchTerm s
  /\ HomePageContent.searchTimer
       (HomePageContent.elapse toLowerCase env ms s)
     = match HomePageContent.searchTimer s with
       | Some (term, due) =>
           if due <=? ms then None else Some (term, due - ms)
       | None => None
       end
  /\ HomePageContent.filteredArticles
       (HomePageContent.elapse toLowerCase env ms s)
     = match HomePageContent.searchTimer s with
       | Some (term, due) =>
           if due <=? ms
           then HomePageContent.search toLowerCase
                  (HomePageContent.articles env) term
           else HomePageContent.filteredArticles s
       | None => HomePageContent.filteredArticles s
       end.
Proof.
  unfold HomePageContent.elapse.
  destruct (HomePageContent.searchTimer s) as [[term due]|] eqn:Et.
  - destruct (due <=? ms); simpl;
      destruct (HomePageContent.visibleTimer s) as [due'|];
      try destruct (due' <=? ms); simpl; rewrite ?Et; repeat split.
  - destruct (HomePageContent.visibleTimer s) as [due'|];
      try destruct (due' <=? ms); simpl; rewrite ?Et; repeat split.
Qed.

(** What they do to the fade-in side. *)
Lemma elapse_visible (ms : nat) (s : HomePageContent.State) :
  HomePageContent.visible (HomePageContent.elapse toLowerCase env ms s)
    = match HomePageContent.visibleTimer s with
      | Some due => if due <=? ms then true else HomePageContent.visible s
      | None => HomePageContent.visible s
      end
  /\ HomePageContent.visibleTimer
       (HomePageContent.elapse toLowerCase env ms s)
     = match HomePageContent.visibleTimer s with
       | Some due => if due <=? ms then None else Some (due - ms)
       | None => None
       end.
Proof.
  unfold HomePageContent.elapse.
  destruct (HomePageContent.searchTimer s) as [[term due]|];
    try destruct (due <=? ms); simpl;
    destruct (HomePageContent.visibleTimer s) as [due'|] eqn:Ev;
    try destruct (due' <=? ms); simpl; rewrite ?Ev; split; reflexivity.
Qed.

(** A keystroke that changes the term runs the two effects on the term. *)
Lemma change_step (s : HomePageContent.State) (v : string) :
  v <> HomePageContent.searchTerm s ->
  HomePageContent.step toLowerCase env s (HomePageContent.Change v)
  = HomePageContent.termEffects env (HomePageContent.setSearchTerm v s).
Proof.
  intros Hne. unfold HomePageContent.step, HomePageContent.commit.
  cbn [HomePageContent.searchTerm HomePageContent.setSearchTerm].
  apply not_eq_sym, String.eqb_neq in Hne. now rewrite Hne.
Qed.

Lemma commit_settled (prev : string) (s : HomePageContent.State) :
  prev = HomePageContent.searchTerm s /\ debounce_settled toLowerCase env s
  \/ prev <> HomePageContent.searchTerm s ->
  debounce_settled toLowerCase env (snd (HomePageContent.commit env prev s)).
Proof.
  unfold HomePageContent.commit.
  destruct (String.eqb_spec prev (HomePageContent.searchTerm s)) as [E|E].
  - intros [[_ H] | H]; [exact H | contradiction].
  - intros _. unfold debounce_settled. simpl.
    unfold HomePageContent.searchDelay. split; [reflexivity | lia].
Qed.

Lemma reachable_settled (s : HomePageContent.State) :
  HomePageContent.reachable toLowerCase env s -> debounce_settled toLowerCase env s.
Proof.
  induction 1 as [|s e Hr IH Hrend].
  - unfold debounce_settled.
    rewrite mount_searchTimer, mount_searchTerm.
    unfold HomePageContent.searchDelay. split; [reflexivity | lia].
  - destruct e as [v| | | |ms]; cbn [HomePageContent.step snd].
    + apply commit_settled.
      destruct (string_dec (HomePageContent.searchTerm s) v) as [<-|Hne];
        [left | right; exact Hne].
      split; [reflexivity | exact IH].
    + apply commit_settled.
      destruct (string_dec (HomePageContent.searchTerm s) "") as [E|Hne];
        [left | right; exact Hne].
      split; [exact E|]. unfold debounce_settled in *. simpl.
      now rewrite <- E.
    + exact IH.
    + exact IH.
    + unfold debounce_settled in *.
      destruct (elapse_search ms s) as [-> [-> ->]].
      destruct (HomePageContent.searchTimer s) as [[term due]|];
        [|exact IH].
      destruct IH as [-> [Hpos Hle]].
      destruct (due <=? ms) eqn:E; [reflexivity|].
      apply Nat.leb_gt in E. split; [reflexivity | lia].
Qed.

End DebounceRuns.

Lemma run_unfold (toLowerCase : string -> string)
    (env : HomePageContent.Env) (s : HomePageContent.State)
    (e : HomePageContent.Event) (es : list HomePageContent.Event) :
  HomePageContent.run toLowerCase env s (e :: es)
  = (fst (HomePageContent.step toLowerCase env s e)
       ++ fst (HomePageContent.run toLowerCase env
                 (snd (HomePageContent.step toLowerCase env s e)) es),
     snd (HomePageContent.run toLowerCase env
            (snd (HomePageContent.step toLowerCase env s e)) es)).
Proof.
  simpl. destruct (HomePageContent.step toLowerCase env s e) as [c s'].
  simpl. now destruct (HomePageContent.run toLowerCase env s' es).
Qed.

(** X15. In every reachable state of [HomePageContent], either a filter
    task is pending for the current search term and due within 300 ms, or
    none is pending and the list shows the search result for the current
    term. So once 300 ms pass without input, the list shows the search
    result for the term in the input box and no task is left pending. *)
Theorem X15_debounce_settles
    (toLowerCase : string -> string) (env : HomePageContent.Env)
    (s : HomePageContent.State)
    (Hreach : HomePageContent.reachable toLowerCase env s) :
  debounce_settled toLowerCase env s
  /\ (forall ms, 300 <= ms ->
        let s' := snd (HomePageContent.step toLowerCase env s
                         (HomePageContent.Elapse ms)) in
        HomePageContent.filteredArticles s'
          = HomePageContent.search toLowerCase
              (HomePageContent.articles env) (HomePageContent.searchTerm s)
        /\ HomePageContent.searchTimer s' = None
        /\ HomePageContent.searchTerm s' = HomePageContent.searchTerm s).
Proof.
  pose proof (reachable_settled toLowerCase env s Hreach) as Hinv.
  split; [exact Hinv|]. intros ms Hms s'. subst s'.
  cbn [HomePageContent.step snd].
  destruct (elapse_search toLowerCase env ms s) as [-> [-> ->]].
  unfold debounce_settled in Hinv.
  destruct (HomePageContent.searchTimer s) as [[term due]|].
  - destruct Hinv as [-> [Hpos Hle]].
    assert (E : (due <=? ms) = true) by (apply Nat.leb_le; lia).
    rewrite E. repeat split.
  - repeat split. exact Hinv.
Qed.

Lemma X15_witness :
  let env := Scenario.pageEnv [Scenario.rustApis; Scenario.onnxGuide]
               [("search", "onnx")] in
  let s := snd (HomePageContent.step Js.toLowerCaseAscii env
                  (snd (HomePageContent.step Js.toLowerCaseAscii env
                          (snd (HomePageContent.mount env))
                          (HomePageContent.Elapse 120)))
                  (HomePageContent.Change "RUST")) in
  HomePageContent.reachable Js.toLowerCaseAscii env s
  /\ HomePageContent.filteredArticles
       (snd (HomePageContent.step Js.toLowerCaseAscii env s
               (HomePageContent.Elapse 300)))
     = [Scenario.rustApis].
Proof.
  intros env s.
  assert (Hr : HomePageContent.reachable Js.toLowerCaseAscii env s).
  { apply HomePageContent.reach_step; [|reflexivity].
    apply HomePageContent.reach_step; [|reflexivity].
    apply HomePageContent.reach_mount. }
  split; [exact Hr|].
  exact (proj1 (proj2 (X15_debounce_settles Js.toLowerCaseAscii env s Hr)
                  300 (le_n 300))).
Defined.

(** X16. Keystrokes closer together than the delay are coalesced: when a
    second change of the term arrives less than 300 ms after the first,
    the list is not filtered for the first term at all, and 300 ms after
    the second it shows the search result for the second term. *)
Theorem X16_debounce_coalesces
    (toLowerCase : string -> string) (env : HomePageContent.Env)
    (s : HomePageContent.State) (v1 v2 : string) (ms1 ms2 : nat)
    (Hv1 : v1 <> HomePageContent.searchTerm s)
    (Hv2 : v2 <> v1)
    (Hms1 : ms1 < 300) (Hms2 : 300 <= ms2) :
  HomePageContent.filteredArticles
    (snd (HomePageContent.run toLowerCase env s
            [HomePageContent.Change v1; HomePageContent.Elapse ms1;
             HomePageContent.Change v2]))
  = HomePageContent.filteredArticles s
  /\ HomePageContent.filteredArticles
       (snd (HomePageContent.run toLowerCase env s
               [HomePageContent.Change v1; HomePageContent.Elapse ms1;
                HomePageContent.Change v2; HomePageContent.Elapse ms2]))
     = HomePageContent.search toLowerCase (HomePageContent.articles env) v2.
Proof.
  set (sa := snd (HomePageContent.step toLowerCase env s
                    (HomePageContent.Change v1))).
  assert (Ha : HomePageContent.searchTerm sa = v1
               /\ HomePageContent.searchTimer sa = Some (v1, 300)
               /\ HomePageContent.filteredArticles sa
                  = HomePageContent.filteredArticles s).
  { subst sa. rewrite change_step by exact Hv1. repeat split. }
  destruct Ha as [Hta [Htia Hfa]].
  set (sb := snd (HomePageContent.step toLowerCase env sa
                    (HomePageContent.Elapse ms1))).
  assert (Hb : HomePageContent.searchTerm sb = v1
               /\ HomePageContent.filteredArticles sb
                  = HomePageContent.filteredArticles s).
  { subst sb. cbn [HomePageContent.step snd].
    destruct (elapse_search toLowerCase env ms1 sa) as [-> [_ ->]].
    rewrite Htia.
    assert (E : (300 <=? ms1) = false) by (apply Nat.leb_gt; exact Hms1).
    rewrite E. now split. }
  destruct Hb as [Htb Hfb].
  set (sc := snd (HomePageContent.step toLowerCase env sb
                    (HomePageContent.Change v2))).
  assert (Hc : HomePageContent.searchTimer sc = Some (v2, 300)
               /\ HomePageContent.filteredArticles sc
                  = HomePageContent.filteredArticles s).
  { subst sc. rewrite change_step by (rewrite Htb; exact Hv2).
    split; [reflexivity|]. exact Hfb. }
  destruct Hc as [Htic Hfc].
  rewrite !run_unfold. cbn [HomePageContent.run snd].
  fold sa. fold sb. fold sc. split; [exact Hfc|].
  apply elapse_fires with (due := 300); [exact Htic | exact Hms2].
Qed.

Lemma X16_witness :
  let env := Scenario.pageEnv [Scenario.rustApis; Scenario.onnxGuide] [] in
  let s := snd (HomePageContent.mount env) in
  "rust" <> HomePageContent.searchTerm s
  /\ HomePageContent.filteredArticles
       (snd (HomePageContent.run Js.toLowerCaseAscii env s
               [HomePageContent.Change "rust"; HomePageContent.Elapse 299;
                HomePageContent.Change "onnx"; HomePageContent.Elapse 300]))
     = [Scenario.onnxGuide].
Proof.
  intros env s.
  assert (H1 : "rust" <> HomePageContent.searchTerm s) by discriminate.
  assert (H2 : "onnx" <> "rust") by discriminate.
  split; [exact H1|].
  refine (proj2 (X16_debounce_coalesces Js.toLowerCaseAscii env s
                   "rust" "onnx" 299 300 H1 H2 _ (le_n 300))).
  lia.
Defined.


(* ================================================================== *)
(** ** Refining and re-casing the query *)

Lemma string_append_assoc (a b c : string) :
  ((a ++ b) ++ c = a ++ (b ++ c))%string.
Proof. induction a as [|x a IH]; simpl; [reflexivity | now rewrite IH]. Qed.

Lemma includes_trans (s t u : string) :
  Js.includes s t = true -> Js.includes t u = true ->
  Js.includes s u = true.
Proof.
  rewrite !includes_spec.
  intros [pre [post ->]] [pre' [post' ->]].
  exists (pre ++ pre')%string, (post' ++ post)%string.
  now rewrite !string_append_assoc.
Qed.

Lemma matches_narrow (toLowerCase : string -> string) (q1 q2 : string)
    (a : Article) :
  Js.includes (toLowerCase q2) (toLowerCase q1) = true ->
  HomePageContent.matches toLowerCase q2 a = true ->
  HomePageContent.matches toLowerCase q1 a = true.
Proof.
  intros Hsub. unfold HomePageContent.matches.
  rewrite !orb_true_iff. intros [H | H].
  - left. exact (includes_trans _ _ _ H Hsub).
  - right. destruct (description a) as [d|]; [|discriminate].
    apply andb_true_iff in H. destruct H as [Hd H].
    rewrite Hd. exact (includes_trans _ _ _ H Hsub).
Qed.

(** X18. Refining the query narrows the result: when the lowered first
    query occurs in the lowered second one (as when the user types more
    characters), every article found for the second query is found for the
    first, and searching the first result for the second query gives the
    same articles as searching the whole collection. *)
Theorem X18_longer_query_narrows
    (toLowerCase : string -> string) (arts : list Article)
    (q1 q2 : string)
    (Hq2 : Js.truthy q2 = true)
    (Hsub : Js.includes (toLowerCase q2) (toLowerCase q1) = true) :
  (forall a, In a (HomePageContent.search toLowerCase arts q2)
             -> In a (HomePageContent.search toLowerCase arts q1))
  /\ HomePageContent.search toLowerCase
       (HomePageContent.search toLowerCase arts q1) q2
     = HomePageContent.search toLowerCase arts q2.
Proof.
  unfold HomePageContent.search. rewrite Hq2. cbn [negb].
  destruct (negb (Js.truthy q1)).
  - split; [|reflexivity]. intros a Ha. now apply filter_In in Ha.
  - split.
    + intros a Ha. apply filter_In in Ha. destruct Ha as [Ha Hm].
      apply filter_In. split; [exact Ha|].
      exact (matches_narrow toLowerCase q1 q2 a Hsub Hm).
    + rewrite filter_filter_andb. apply filter_ext. intros a.
      destruct (HomePageContent.matches toLowerCase q2 a) eqn:E;
        [|reflexivity].
      now rewrite (matches_narrow toLowerCase q1 q2 a Hsub E).
Qed.

Lemma X18_witness :
  Js.truthy "Rust A" = true
  /\ Js.includes (Js.toLowerCaseAscii "Rust A") (Js.toLowerCaseAscii "RU")
     = true
  /\ HomePageContent.search Js.toLowerCaseAscii
       (HomePageContent.search Js.toLowerCaseAscii
          [Scenario.rustApis; Scenario.onnxGuide] "RU") "Rust A"
     = [Scenario.rustApis].
Proof.
  split; [reflexivity|]. split; [reflexivity|].
  rewrite (proj2 (X18_longer_query_narrows Js.toLowerCaseAscii
                    [Scenario.rustApis; Scenario.onnxGuide] "RU" "Rust A"
                    eq_refl eq_refl)).
  reflexivity.
Defined.

(** X19. The case of the query does not matter: two non-empty queries
    with the same lowering give the same search result. *)
Theorem X19_query_case_is_ignored
    (toLowerCase : string -> string) (arts : list Article)
    (q1 q2 : string)
    (Hsame : toLowerCase q1 = toLowerCase q2)
    (Hq1 : Js.truthy q1 = true) (Hq2 : Js.truthy q2 = true) :
  HomePageContent.search toLowerCase arts q1
  = HomePageContent.search toLowerCase arts q2.
Proof.
  unfold HomePageContent.search. rewrite Hq1, Hq2. cbn [negb].
  apply filter_ext. intros a. unfold HomePageContent.matches.
  now rewrite Hsame.
Qed.

Lemma X19_witness :
  Js.toLowerCaseAscii "OnNx" = Js.toLowerCaseAscii "onnx"
  /\ HomePageContent.search Js.toLowerCaseAscii
       [Scenario.rustApis; Scenario.onnxGuide] "OnNx"
     = [Scenario.onnxGuide].
Proof.
  split; [reflexivity|].
  rewrite (X19_query_case_is_ignored Js.toLowerCaseAscii
             [Scenario.rustApis; Scenario.onnxGuide] "OnNx" "onnx"
             eq_refl eq_refl eq_refl).
  reflexivity.
Defined.

(* ================================================================== *)
(** ** The fade-in *)

Lemma reachable_visible (toLowerCase : string -> string)
    (env : HomePageContent.Env) (s : HomePageContent.State) :
  HomePageContent.reachable toLowerCase env s ->
  match HomePageContent.visibleTimer s with
  | Some due => due <= 100
  | None => HomePageContent.visible s = true
  end.
Proof.
  induction 1 as [|s e Hr IH Hrend].
  - unfold HomePageContent.mount, HomePageContent.mountCommit,
      HomePageContent.commit. simpl.
    destruct (HomePageContent.initialSearch env); simpl;
      unfold HomePageContent.visibleDelay; lia.
  - destruct e as [v| | | |ms]; cbn [HomePageContent.step snd].
    + unfold HomePageContent.commit.
      now destruct (String.eqb _ _).
    + unfold HomePageContent.commit.
      now destruct (String.eqb _ _).
    + exact IH.
    + exact IH.
    + destruct (elapse_visible toLowerCase env ms s) as [Hv ->].
      rewrite Hv.
      destruct (HomePageContent.visibleTimer s) as [due|]; [|exact IH].
      destruct (due <=? ms) eqn:E; [reflexivity|].
      apply Nat.leb_gt in E. lia.
Qed.

(** X20. The article list fades in 100 ms after mount and stays visible:
    in a reachable state, once 100 ms pass [visible] is true, and no event
    turns a true [visible] back to false. *)
Theorem X20_fade_in (toLowerCase : string -> string)
    (env : HomePageContent.Env) (s : HomePageContent.State)
    (Hreach : HomePageContent.reachable toLowerCase env s) :
  HomePageContent.visible (snd (HomePageContent.mount env)) = false
  /\ (forall ms, 100 <= ms ->
        HomePageContent.visible
          (snd (HomePageContent.step toLowerCase env s
                  (HomePageContent.Elapse ms))) = true)
  /\ (forall e, HomePageContent.visible s = true ->
        HomePageContent.visible
          (snd (HomePageContent.step toLowerCase env s e)) = true).
Proof.
  split.
  { unfold HomePageContent.mount, HomePageContent.mountCommit,
      HomePageContent.commit. simpl.
    now destruct (HomePageContent.initialSearch env). }
  pose proof (reachable_visible toLowerCase env s Hreach) as Hinv.
  split.
  - intros ms Hms. cbn [HomePageContent.step snd].
    rewrite (proj1 (elapse_visible toLowerCase env ms s)).
    destruct (HomePageContent.visibleTimer s) as [due|]; [|exact Hinv].
    assert (E : (due <=? ms) = true) by (apply Nat.leb_le; lia).
    now rewrite E.
  - intros e Hv. destruct e as [v| | | |ms]; cbn [HomePageContent.step snd].
    + unfold HomePageContent.commit. now destruct (String.eqb _ _).
    + unfold HomePageContent.commit. now destruct (String.eqb _ _).
    + exact Hv.
    + exact Hv.
    + rewrite (proj1 (elapse_visible toLowerCase env ms s)), Hv.
      destruct (HomePageContent.visibleTimer s) as [due|]; [|reflexivity].
      now destruct (due <=? ms).
Qed.

Lemma X20_witness :
  let env := Scenario.pageEnv [Scenario.rustApis] [] in
  let s := snd (HomePageContent.step Js.toLowerCaseAscii env
                  (snd (HomePageContent.mount env))
                  (HomePageContent.Elapse 40)) in
  HomePageContent.reachable Js.toLowerCaseAscii env s
  /\ HomePageContent.visible s = false
  /\ HomePageContent.visible
       (snd (HomePageContent.step Js.toLowerCaseAscii env s
               (HomePageContent.Elapse 100))) = true.
Proof.
  intros env s.
  assert (Hr : HomePageContent.reachable Js.toLowerCaseAscii env s).
  { apply HomePageContent.reach_step; [|reflexivity].
    apply HomePageContent.reach_mount. }
  split; [exact Hr|]. split; [reflexivity|].
  exact (proj1 (proj2 (X20_fade_in Js.toLowerCaseAscii env s Hr))
           100 (le_n 100)).
Defined.
